(** * go-astc-encoder: the native bridge and the ASTC container framing

    A shallow embedding of
      - [src/bench/astcbenchcpp.cpp]: the [.astc] container header
        (writer, reader, block-count arithmetic), and
      - [src/astc/native/internal/astcenc/bridge.cpp]: slice-pointer
        tables, the thread-local progress slot, the decompression size
        guard and the block-info copy,
    followed by the properties proved about them.

    Machine model: LP64.  [int] and [unsigned int] are 32 bits wide,
    [size_t], [uintptr_t] and data pointers are 64 bits wide.  Integers
    are [Z] with the wrap-around of each C++ operation written out. *)

From Stdlib Require Import ZArith Lia List Ascii String.
From stdpp Require Import base list.

Local Open Scope Z_scope.

(** ** Fixed-width conversions *)

Module Machine.

(** [static_cast<uint8_t>(v)] *)
Definition to_uint8 (v : Z) : Z := Z.land v 255.

(** [static_cast<uint32_t>(v)] *)
Definition to_uint32 (v : Z) : Z := v mod 2 ^ 32.

(** [static_cast<size_t>(v)], also the result of every [size_t]
    operation and of address arithmetic. *)
Definition to_size_t (v : Z) : Z := v mod 2 ^ 64.

(** [static_cast<int>(v)], two's complement. *)
Definition to_int (v : Z) : Z := (v + 2 ^ 31) mod 2 ^ 32 - 2 ^ 31.

Definition int_add (a b : Z) : Z := to_int (a + b).
Definition int_sub (a b : Z) : Z := to_int (a - b).
(** C++ integer division truncates towards zero. *)
Definition int_div (a b : Z) : Z := to_int (Z.quot a b).

Definition size_mul (a b : Z) : Z := to_size_t (a * b).
Definition size_add (a b : Z) : Z := to_size_t (a + b).

(** [p + n] for [p : T*] with [sizeof(T) = elem]: the address moves by
    [n * elem] bytes. *)
Definition ptr_add (elem : Z) (p n : Z) : Z := to_size_t (p + n * elem).

(** Address [p] moved by [bytes] bytes. *)
Definition ptr_offset (p bytes : Z) : Z := to_size_t (p + bytes).

End Machine.

(** ** Exceptions

    The harness reports every failure by throwing [std::runtime_error]
    with a fixed message.  [Thrown what] is such a throw, [Returned v] a
    normal return. *)

Inductive outcome (A : Type) : Type :=
| Thrown (what : string)
| Returned (v : A).
Arguments Thrown {A} what.
Arguments Returned {A} v.

Definition bind_outcome {A B} (o : outcome A) (k : A -> outcome B) : outcome B :=
  match o with
  | Thrown what => Thrown what
  | Returned v => k v
  end.

(** ** The container codec of [astcbenchcpp.cpp] *)

Module Container.
Import Machine.

(** [p[i]] for [const uint8_t* p = buf + off]. *)
Definition byte_at (buf : list Z) (off i : nat) : Z := nth (off + i)%nat buf 0.

(** [read_u24_le(p)] with [p = buf + off]. *)
Definition read_u24_le (buf : list Z) (off : nat) : Z :=
  Z.lor
    (Z.lor (to_uint32 (byte_at buf off 0))
           (to_uint32 (Z.shiftl (to_uint32 (byte_at buf off 1)) 8)))
    (to_uint32 (Z.shiftl (to_uint32 (byte_at buf off 2)) 16)).

(** [write_u24_le(p, v)] with [p = buf + off]; [v] is a [uint32_t]. *)
Definition write_u24_le (buf : list Z) (off : nat) (v : Z) : list Z :=
  let buf := <[(off + 0)%nat := to_uint8 v]> buf in
  let buf := <[(off + 1)%nat := to_uint8 (Z.shiftr v 8)]> buf in
  <[(off + 2)%nat := to_uint8 (Z.shiftr v 16)]> buf.

(** [write_astc_header(out16, bx, by, bz, sx, sy, sz)]: sixteen stores,
    no check of any argument, no return value. *)
Definition write_astc_header (out16 : list Z) (bx by_ bz sx sy sz : Z) : list Z :=
  let out16 := <[0%nat := 0x13]> out16 in
  let out16 := <[1%nat := 0xAB]> out16 in
  let out16 := <[2%nat := 0xA1]> out16 in
  let out16 := <[3%nat := 0x5C]> out16 in
  let out16 := <[4%nat := to_uint8 bx]> out16 in
  let out16 := <[5%nat := to_uint8 by_]> out16 in
  let out16 := <[6%nat := to_uint8 bz]> out16 in
  let out16 := write_u24_le out16 7 (to_uint32 sx) in
  let out16 := write_u24_le out16 10 (to_uint32 sy) in
  write_u24_le out16 13 (to_uint32 sz).

(** The six values [decode_main] takes out of a header. *)
Record astc_header : Type := mk_header {
  hdr_bx : Z; hdr_by : Z; hdr_bz : Z;
  hdr_sx : Z; hdr_sy : Z; hdr_sz : Z
}.

(** [decode_main], from the size test on the file to the test of the
    six header values. *)
Definition decode_main_header (file : list Z) : outcome astc_header :=
  if Z.of_nat (length file) <? 16 then Thrown "input too small"
  else
    if negb (byte_at file 0 0 =? 0x13) || negb (byte_at file 0 1 =? 0xAB)
       || negb (byte_at file 0 2 =? 0xA1) || negb (byte_at file 0 3 =? 0x5C)
    then Thrown "invalid ASTC magic"
    else
      let bx := byte_at file 0 4 in
      let by_ := byte_at file 0 5 in
      let bz := byte_at file 0 6 in
      let sx := to_int (read_u24_le file 7) in
      let sy := to_int (read_u24_le file 10) in
      let sz := to_int (read_u24_le file 13) in
      if (bx <=? 0) || (by_ <=? 0) || (bz <=? 0)
         || (sx <=? 0) || (sy <=? 0) || (sz <=? 0)
      then Thrown "invalid ASTC header"
      else Returned (mk_header bx by_ bz sx sy sz).

(** [(s + b - 1) / b] in [int] arithmetic. *)
Definition blocks_along (s b : Z) : Z := int_div (int_sub (int_add s b) 1) b.

(** [total_blocks]: the product of the three per-axis counts, each
    converted to [size_t] first. *)
Definition total_blocks (bx by_ bz sx sy sz : Z) : Z :=
  let blocks_x := blocks_along sx bx in
  let blocks_y := blocks_along sy by_ in
  let blocks_z := blocks_along sz bz in
  size_mul (size_mul (to_size_t blocks_x) (to_size_t blocks_y)) (to_size_t blocks_z).

(** [need = 16 + total_blocks * 16] *)
Definition need (total_blocks : Z) : Z := size_add 16 (size_mul total_blocks 16).

(** What [decode_main] knows once the file passed every test: the
    header, the block count and the length of the block data. *)
Record astc_file : Type := mk_file {
  file_header : astc_header;
  file_total_blocks : Z;
  file_blocks_len : Z
}.

(** [decode_main], from the block counts to [blocks_len]. *)
Definition decode_main_blocks (file : list Z) (h : astc_header) : outcome astc_file :=
  let total := total_blocks (hdr_bx h) (hdr_by h) (hdr_bz h) (hdr_sx h) (hdr_sy h) (hdr_sz h) in
  let need := need total in
  if Z.of_nat (length file) <? need then Thrown "truncated ASTC data"
  else Returned (mk_file h total (size_mul total 16)).

(** The container reader of [decode_main]: both stages in sequence. *)
Definition decode_main_container (file : list Z) : outcome astc_file :=
  bind_outcome (decode_main_header file) (decode_main_blocks file).

(** [encode_main], from the test of its dimensions to the file it
    writes, for a positive iteration count, a block shape the codec
    accepted and the block data [out] the codec compressed the image
    to: the test of the dimensions first, then a zero-filled vector of
    [16 + out.size()] bytes, the header written at its start, the
    blocks copied behind it.  Between the test and the header nothing
    looks at the range of a dimension. *)
Definition encode_main_file (bx by_ bz w h d : Z) (out : list Z) : outcome (list Z) :=
  if (w <=? 0) || (h <=? 0) || (d <=? 0) then Thrown "invalid dimensions/iters"
  else
    let file := repeat 0 (16 + length out) in
    let file := write_astc_header file bx by_ bz w h d in
    let file := take 16 file ++ out in
    Returned file.

End Container.

(** ** The codec interface used by [bridge.cpp] *)

Module Astcenc.

(** Modelled from the spec: the error enumeration of the codec's header
    [astcenc.h], which is not among the sources.  The bridge names
    three of its members and passes every other one through. *)
Inductive astcenc_error : Type :=
| ASTCENC_SUCCESS
| ASTCENC_ERR_OUT_OF_MEM
| ASTCENC_ERR_BAD_CPU_FLOAT
| ASTCENC_ERR_BAD_PARAM
| ASTCENC_ERR_BAD_BLOCK_SIZE
| ASTCENC_ERR_BAD_PROFILE
| ASTCENC_ERR_BAD_QUALITY
| ASTCENC_ERR_BAD_SWIZZLE
| ASTCENC_ERR_BAD_FLAGS
| ASTCENC_ERR_BAD_CONTEXT
| ASTCENC_ERR_NOT_IMPLEMENTED
| ASTCENC_ERR_BAD_DECODE_MODE.

(** [err != ASTCENC_SUCCESS] *)
Definition is_error (err : astcenc_error) : bool :=
  match err with
  | ASTCENC_SUCCESS => false
  | _ => true
  end.

(** Modelled from the spec: the element kinds of [astcenc.h], with the
    values [bridge.h] documents ("0=u8, 1=f16, 2=f32"). *)
Definition ASTCENC_TYPE_U8 : Z := 0.
Definition ASTCENC_TYPE_F16 : Z := 1.
Definition ASTCENC_TYPE_F32 : Z := 2.

(** Modelled from the spec: the channel selectors of [astcenc.h], which
    [bridge.h] requires to equal its own [ASTC_NATIVE_SWZ_*] values. *)
Definition ASTCENC_SWZ_R : Z := 0.
Definition ASTCENC_SWZ_G : Z := 1.
Definition ASTCENC_SWZ_B : Z := 2.
Definition ASTCENC_SWZ_A : Z := 3.

(** A [float] is its 32-bit pattern; the bridge only copies floats. *)
Definition float : Type := Z.

(** Modelled from the spec: [astcenc_swizzle] of [astcenc.h]. *)
Record astcenc_swizzle : Type := mk_swizzle {
  swz_r : Z; swz_g : Z; swz_b : Z; swz_a : Z
}.

(** Modelled from the spec: [astcenc_image] of [astcenc.h].  [data] is
    the slice-pointer table, [None] for [nullptr]. *)
Record astcenc_image : Type := mk_image {
  dim_x : Z; dim_y : Z; dim_z : Z;
  data_type : Z;
  data : option (list Z)
}.

(** Modelled from the spec: [astcenc_block_info] of [astcenc.h], of
    which [bridge.h] says its own record is a plain copy. *)
Record astcenc_block_info : Type := mk_block_info {
  bi_profile : Z;
  bi_block_x : Z; bi_block_y : Z; bi_block_z : Z;
  bi_texel_count : Z;
  bi_is_error_block : bool;
  bi_is_constant_block : bool;
  bi_is_hdr_block : bool;
  bi_is_dual_plane_block : bool;
  bi_partition_count : Z;
  bi_partition_index : Z;
  bi_dual_plane_component : Z;
  bi_color_endpoint_modes : list Z;
  bi_color_level_count : Z;
  bi_weight_level_count : Z;
  bi_weight_x : Z; bi_weight_y : Z; bi_weight_z : Z;
  bi_color_endpoints : list float;
  bi_weight_values_plane1 : list float;
  bi_weight_values_plane2 : list float;
  bi_partition_assignment : list Z
}.

End Astcenc.

(** ** [bridge.cpp] *)

Module Bridge.
Import Machine Astcenc.

(** [astc_native_swizzle] of [bridge.h] *)
Record astc_native_swizzle : Type := mk_native_swizzle {
  r : Z; g : Z; b : Z; a : Z
}.

(** [astc_native_block_info] of [bridge.h]; the arrays are lists of 4,
    32 (4 x 2 x 4), 216, 216 and 216 entries. *)
Record astc_native_block_info : Type := mk_native_block_info {
  profile : Z;
  block_x : Z; block_y : Z; block_z : Z;
  texel_count : Z;
  is_error_block : Z;
  is_constant_block : Z;
  is_hdr_block : Z;
  is_dual_plane_block : Z;
  partition_count : Z;
  partition_index : Z;
  dual_plane_component : Z;
  color_endpoint_modes : list Z;
  color_level_count : Z;
  weight_level_count : Z;
  weight_x : Z; weight_y : Z; weight_z : Z;
  color_endpoints : list float;
  weight_values_plane1 : list float;
  weight_values_plane2 : list float;
  partition_assignment : list Z
}.

(** *** Slice-pointer tables *)

(** A fresh table of [n] pointers ([alloca], [new void*[n]]); its
    entries are not initialised, 0 stands for whatever they hold. *)
Definition new_table (n : Z) : list Z := replicate (Z.to_nat n) 0.

(** [for (z = 0; z < dim_z; z++) slices[z] = base + size_t(z) * slice_stride]
    with [base] pointing to elements of [elem] bytes. *)
Definition fill_slices (elem base slice_stride dim_z : Z) (slices : list Z) : list Z :=
  fold_left
    (fun slices z =>
       <[z := ptr_add elem base (size_mul (to_size_t (Z.of_nat z)) slice_stride)]> slices)
    (seq 0 (Z.to_nat dim_z)) slices.

(** [size_t(dim_x) * size_t(dim_y) * 4] *)
Definition slice_stride (dim_x dim_y : Z) : Z :=
  size_mul (size_mul (to_size_t dim_x) (to_size_t dim_y)) 4.

(** The transient image of [astc_native_compress_image_ex]: a stack
    table filled according to the element kind; [None] where the
    function leaves with [ASTCENC_ERR_BAD_PARAM] for an unknown kind. *)
Definition compress_transient_image (data_type dim_x dim_y dim_z rgba : Z)
  : option astcenc_image :=
  let slices := new_table dim_z in
  let slice_stride := slice_stride dim_x dim_y in
  let filled :=
    if data_type =? ASTCENC_TYPE_U8
    then Some (fill_slices 1 rgba slice_stride dim_z slices)
    else if data_type =? ASTCENC_TYPE_F16
    then Some (fill_slices 2 rgba slice_stride dim_z slices)
    else if data_type =? ASTCENC_TYPE_F32
    then Some (fill_slices 4 rgba slice_stride dim_z slices)
    else None in
  match filled with
  | Some slices => Some (mk_image dim_x dim_y dim_z data_type (Some slices))
  | None => None
  end.

(** [astc_native_image_create_u8/f16/f32]: [out_img] is where the new
    image is stored. *)
Definition image_create (kind : Z) (out_img : Z) : astcenc_error * option astcenc_image :=
  if out_img =? 0 then (ASTCENC_ERR_BAD_PARAM, None)
  else (ASTCENC_SUCCESS, Some (mk_image 0 0 0 kind None)).

Definition astc_native_image_create_u8 := image_create ASTCENC_TYPE_U8.
Definition astc_native_image_create_f16 := image_create ASTCENC_TYPE_F16.
Definition astc_native_image_create_f32 := image_create ASTCENC_TYPE_F32.

(** The common body of [astc_native_image_init_u8/f16/f32], which
    differ in the element kind stored and the element size of [base].
    [imgp] is the image behind the pointer, [None] for a null pointer;
    the result is the error code and the image afterwards. *)
Definition image_init (kind elem : Z) (imgp : option astcenc_image)
           (dim_x dim_y dim_z rgba : Z) : astcenc_error * option astcenc_image :=
  match imgp with
  | None => (ASTCENC_ERR_BAD_PARAM, None)
  | Some img =>
      if (rgba =? 0) || (dim_x =? 0) || (dim_y =? 0) || (dim_z =? 0)
      then (ASTCENC_ERR_BAD_PARAM, Some img)
      else
        let table :=
          match data img with
          | None => new_table dim_z
          | Some old => if negb (Astcenc.dim_z img =? dim_z) then new_table dim_z else old
          end in
        let slice_stride := slice_stride dim_x dim_y in
        let table := fill_slices elem rgba slice_stride dim_z table in
        (ASTCENC_SUCCESS, Some (mk_image dim_x dim_y dim_z kind (Some table)))
  end.

Definition astc_native_image_init_u8 := image_init ASTCENC_TYPE_U8 1.
Definition astc_native_image_init_f16 := image_init ASTCENC_TYPE_F16 2.
Definition astc_native_image_init_f32 := image_init ASTCENC_TYPE_F32 4.

(** [makeSwizzle] *)
Definition makeSwizzle (in_swz : option astc_native_swizzle) : astcenc_swizzle :=
  match in_swz with
  | None => mk_swizzle ASTCENC_SWZ_R ASTCENC_SWZ_G ASTCENC_SWZ_B ASTCENC_SWZ_A
  | Some s => mk_swizzle (r s) (g s) (b s) (a s)
  end.

(** *** The progress slot *)

Definition thread : Type := nat.

(** What the bridge and its callers share: the thread-local variable
    [astc_native_tls_progress_handle], one slot per thread, and the
    calls [astc_native_go_progress] has received, oldest first. *)
Record world : Type := mk_world {
  astc_native_tls_progress_handle : thread -> Z;
  go_progress_calls : list (Z * float)
}.

(** Every slot starts at 0. *)
Definition initial_world : world := mk_world (fun _ => 0) [].

Definition set_tls_progress_handle (t : thread) (handle : Z) (w : world) : world :=
  mk_world
    (fun t' => if Nat.eqb t' t then handle else astc_native_tls_progress_handle w t')
    (go_progress_calls w).

(** The arguments of one call of [astc_native_compress_image_ex]. *)
Record compress_args : Type := mk_compress_args {
  ctxp : Z;
  arg_data_type : Z;
  arg_dim_x : Z; arg_dim_y : Z; arg_dim_z : Z;
  rgba : Z;
  in_swz : option astc_native_swizzle;
  out_data : Z;
  out_len : Z;
  thread_index : Z;
  progress_handle : Z
}.

(** What a call of the codec's [astcenc_compress_image] does on the
    calling thread, as far as the bridge can see: it invokes the
    progress callback some number of times and returns an error code.
    What the Go side does when [astc_native_go_progress] reaches it is
    part of the run: it may call [astc_native_compress_image_ex] again,
    on the same thread, any number of times before it returns; the
    codec of such a call is given with it. *)
Inductive codec_run : Type :=
| Return (err : astcenc_error)
| Progress (progress : float) (go : go_run) (rest : codec_run)
with go_run : Type :=
| GoReturn
| GoCompress (args : compress_args)
             (astcenc_compress_image :
                Z -> astcenc_image -> astcenc_swizzle -> Z -> Z -> Z -> codec_run)
             (rest : go_run).

Scheme codec_run_mut := Induction for codec_run Sort Prop
  with go_run_mut := Induction for go_run Sort Prop.
Combined Scheme codec_go_mutind from codec_run_mut, go_run_mut.

(** The codec's [astcenc_compress_image]. *)
Definition compress_fn : Type :=
  Z -> astcenc_image -> astcenc_swizzle -> Z -> Z -> Z -> codec_run.

(** [astc_native_progress_callback], with [astc_native_go_progress]
    as a parameter. *)
Definition progress_callback_with
           (astc_native_go_progress : Z -> float -> world -> world)
           (t : thread) (progress : float) (w : world) : world :=
  let handle := astc_native_tls_progress_handle w t in
  if negb (handle =? 0) then astc_native_go_progress handle progress w else w.

(** [astc_native_compress_image_ex] on thread [t], with the execution
    of the codec as a parameter. *)
Definition compress_image_ex_with
           (run : codec_run -> world -> astcenc_error * world)
           (astcenc_compress_image : compress_fn)
           (t : thread) (args : compress_args) (w : world) : astcenc_error * world :=
  if (ctxp args =? 0) || (rgba args =? 0) || (out_data args =? 0)
     || (arg_dim_x args =? 0) || (arg_dim_y args =? 0) || (arg_dim_z args =? 0)
  then (ASTCENC_ERR_BAD_PARAM, w)
  else
    match compress_transient_image (arg_data_type args) (arg_dim_x args) (arg_dim_y args)
                                   (arg_dim_z args) (rgba args) with
    | None => (ASTCENC_ERR_BAD_PARAM, w)
    | Some img =>
        let swz := makeSwizzle (in_swz args) in
        let old_handle := astc_native_tls_progress_handle w t in
        let w := set_tls_progress_handle t (progress_handle args) w in
        let (err, w) :=
          run (astcenc_compress_image (ctxp args) img swz (out_data args)
                                      (out_len args) (thread_index args)) w in
        let w := set_tls_progress_handle t old_handle w in
        (err, w)
    end.

(** The execution of a codec run on thread [t]: each progress event
    goes through [astc_native_progress_callback]; a call that reaches
    [astc_native_go_progress] is recorded and the Go side then runs. *)
Fixpoint run_codec (t : thread) (run : codec_run) (w : world) {struct run}
  : astcenc_error * world :=
  match run with
  | Return err => (err, w)
  | Progress progress go rest =>
      let w :=
        progress_callback_with
          (fun handle progress w =>
             run_go t go (mk_world (astc_native_tls_progress_handle w)
                                   (go_progress_calls w ++ [(handle, progress)])))
          t progress w in
      run_codec t rest w
  end
with run_go (t : thread) (go : go_run) (w : world) {struct go} : world :=
  match go with
  | GoReturn => w
  | GoCompress args astcenc_compress_image rest =>
      let (_, w) := compress_image_ex_with (run_codec t) astcenc_compress_image t args w in
      run_go t rest w
  end.

(** [astc_native_progress_callback] on thread [t], the Go side doing
    [go] when it is reached. *)
Definition astc_native_progress_callback (go : go_run) (t : thread) (progress : float)
           (w : world) : world :=
  progress_callback_with
    (fun handle progress w =>
       run_go t go (mk_world (astc_native_tls_progress_handle w)
                             (go_progress_calls w ++ [(handle, progress)])))
    t progress w.

(** [astc_native_compress_image_ex] on thread [t]. *)
Definition astc_native_compress_image_ex
           (astcenc_compress_image : compress_fn)
           (t : thread) (args : compress_args) (w : world) : astcenc_error * world :=
  compress_image_ex_with (run_codec t) astcenc_compress_image t args w.

(** [astc_native_compress_image]: no slot is touched. *)
Definition astc_native_compress_image
           (astcenc_compress_image : compress_fn)
           (t : thread) (ctxp : Z) (imgp : option astcenc_image)
           (out_data out_len thread_index : Z) (w : world) : astcenc_error * world :=
  match imgp with
  | None => (ASTCENC_ERR_BAD_PARAM, w)
  | Some img =>
      if (ctxp =? 0) || (out_data =? 0) then (ASTCENC_ERR_BAD_PARAM, w)
      else
        let swz := mk_swizzle ASTCENC_SWZ_R ASTCENC_SWZ_G ASTCENC_SWZ_B ASTCENC_SWZ_A in
        run_codec t (astcenc_compress_image ctxp img swz out_data out_len thread_index) w
  end.

(** *** Decompression *)

(** The caller's memory, byte by address. *)
Definition memory : Type := Z -> Z.

(** The codec's [astcenc_decompress_image]: it returns an error code
    and may write to memory. *)
Definition decompress_fn : Type :=
  Z -> Z -> Z -> astcenc_image -> astcenc_swizzle -> Z -> memory -> astcenc_error * memory.

(** The transient image of [astc_native_decompress_image_ex]; the
    element kind has been tested before, the last branch is taken by
    every kind but the first two. *)
Definition decompress_transient_image (out_type dim_x dim_y dim_z out_rgba : Z)
  : astcenc_image :=
  let slices := new_table dim_z in
  let slice_stride := slice_stride dim_x dim_y in
  let slices :=
    if out_type =? ASTCENC_TYPE_U8
    then fill_slices 1 out_rgba slice_stride dim_z slices
    else if out_type =? ASTCENC_TYPE_F16
    then fill_slices 2 out_rgba slice_stride dim_z slices
    else fill_slices 4 out_rgba slice_stride dim_z slices in
  mk_image dim_x dim_y dim_z out_type (Some slices).

(** [need] of [astc_native_decompress_image_ex]; [None] where the
    function leaves with [ASTCENC_ERR_BAD_PARAM] for an unknown kind. *)
Definition decompress_need (out_type dim_x dim_y dim_z : Z) : option Z :=
  let texel_count := size_mul (size_mul (to_size_t dim_x) (to_size_t dim_y)) (to_size_t dim_z) in
  if out_type =? ASTCENC_TYPE_U8 then Some (size_mul texel_count 4)
  else if out_type =? ASTCENC_TYPE_F16 then Some (size_mul (size_mul texel_count 4) 2)
  else if out_type =? ASTCENC_TYPE_F32 then Some (size_mul (size_mul texel_count 4) 4)
  else None.

(** [astc_native_decompress_image_ex] *)
Definition astc_native_decompress_image_ex
           (astcenc_decompress_image : decompress_fn)
           (ctxp data data_len out_type dim_x dim_y dim_z out_rgba out_len : Z)
           (in_swz : option astc_native_swizzle) (thread_index : Z)
           (m : memory) : astcenc_error * memory :=
  if (ctxp =? 0) || (data =? 0) || (out_rgba =? 0)
     || (dim_x =? 0) || (dim_y =? 0) || (dim_z =? 0)
  then (ASTCENC_ERR_BAD_PARAM, m)
  else
    match decompress_need out_type dim_x dim_y dim_z with
    | None => (ASTCENC_ERR_BAD_PARAM, m)
    | Some need =>
        if out_len <? need then (ASTCENC_ERR_OUT_OF_MEM, m)
        else
          let img := decompress_transient_image out_type dim_x dim_y dim_z out_rgba in
          let swz := makeSwizzle in_swz in
          astcenc_decompress_image ctxp data data_len img swz thread_index m
    end.

(** [astc_native_decompress_image_rgba8] *)
Definition astc_native_decompress_image_rgba8
           (astcenc_decompress_image : decompress_fn)
           (ctxp data data_len dim_x dim_y dim_z out_rgba out_len thread_index : Z)
           (m : memory) : astcenc_error * memory :=
  if (ctxp =? 0) || (data =? 0) || (out_rgba =? 0)
     || (dim_x =? 0) || (dim_y =? 0) || (dim_z =? 0)
  then (ASTCENC_ERR_BAD_PARAM, m)
  else
    let need :=
      size_mul (size_mul (size_mul (to_size_t dim_x) (to_size_t dim_y)) (to_size_t dim_z)) 4 in
    if out_len <? need then (ASTCENC_ERR_OUT_OF_MEM, m)
    else
      let slices := new_table dim_z in
      let slice_stride := slice_stride dim_x dim_y in
      let slices := fill_slices 1 out_rgba slice_stride dim_z slices in
      let img := mk_image dim_x dim_y dim_z ASTCENC_TYPE_U8 (Some slices) in
      let swz := mk_swizzle ASTCENC_SWZ_R ASTCENC_SWZ_G ASTCENC_SWZ_B ASTCENC_SWZ_A in
      astcenc_decompress_image ctxp data data_len img swz thread_index m.

(** [astc_native_decompress_image_rgba32f] *)
Definition astc_native_decompress_image_rgba32f
           (astcenc_decompress_image : decompress_fn)
           (ctxp data data_len dim_x dim_y dim_z out_rgba out_len thread_index : Z)
           (m : memory) : astcenc_error * memory :=
  if (ctxp =? 0) || (data =? 0) || (out_rgba =? 0)
     || (dim_x =? 0) || (dim_y =? 0) || (dim_z =? 0)
  then (ASTCENC_ERR_BAD_PARAM, m)
  else
    let need :=
      size_mul
        (size_mul (size_mul (size_mul (to_size_t dim_x) (to_size_t dim_y)) (to_size_t dim_z)) 4)
        4 in
    if out_len <? need then (ASTCENC_ERR_OUT_OF_MEM, m)
    else
      let slices := new_table dim_z in
      let slice_stride := slice_stride dim_x dim_y in
      let slices := fill_slices 4 out_rgba slice_stride dim_z slices in
      let img := mk_image dim_x dim_y dim_z ASTCENC_TYPE_F32 (Some slices) in
      let swz := mk_swizzle ASTCENC_SWZ_R ASTCENC_SWZ_G ASTCENC_SWZ_B ASTCENC_SWZ_A in
      astcenc_decompress_image ctxp data data_len img swz thread_index m.

(** *** Block information *)

(** [b ? 1 : 0] *)
Definition flag (b : bool) : Z := if b then 1 else 0.

(** [astc_native_get_block_info].  [data] is the block behind the
    pointer and [out_info] the record behind the pointer, [None] for a
    null pointer; the codec fills a local record and returns an error
    code.  The result is the error code and the caller's record
    afterwards. *)
Definition astc_native_get_block_info
           (astcenc_get_block_info : Z -> list Z -> astcenc_error * astcenc_block_info)
           (ctxp : Z) (data : option (list Z)) (out_info : option astc_native_block_info)
  : astcenc_error * option astc_native_block_info :=
  match data, out_info with
  | Some data, Some out =>
      if ctxp =? 0 then (ASTCENC_ERR_BAD_PARAM, out_info)
      else
        let (err, info) := astcenc_get_block_info ctxp data in
        if is_error err then (err, out_info)
        else
          (ASTCENC_SUCCESS,
           Some {| profile := bi_profile info;
                   block_x := bi_block_x info;
                   block_y := bi_block_y info;
                   block_z := bi_block_z info;
                   texel_count := bi_texel_count info;
                   is_error_block := flag (bi_is_error_block info);
                   is_constant_block := flag (bi_is_constant_block info);
                   is_hdr_block := flag (bi_is_hdr_block info);
                   is_dual_plane_block := flag (bi_is_dual_plane_block info);
                   partition_count := bi_partition_count info;
                   partition_index := bi_partition_index info;
                   dual_plane_component := bi_dual_plane_component info;
                   color_endpoint_modes := take 4 (bi_color_endpoint_modes info);
                   color_level_count := bi_color_level_count info;
                   weight_level_count := bi_weight_level_count info;
                   weight_x := bi_weight_x info;
                   weight_y := bi_weight_y info;
                   weight_z := bi_weight_z info;
                   color_endpoints := take 32 (bi_color_endpoints info);
                   weight_values_plane1 := take 216 (bi_weight_values_plane1 info);
                   weight_values_plane2 := take 216 (bi_weight_values_plane2 info);
                   partition_assignment := take 216 (bi_partition_assignment info) |})
  | _, _ => (ASTCENC_ERR_BAD_PARAM, out_info)
  end.

End Bridge.

(** ** Vocabulary of the design description for the bridge *)

(** Element size in bytes of an element kind: 1, 2 and 4 for U8, F16
    and F32. *)
Definition element_size (kind : Z) : Z :=
  if kind =? Astcenc.ASTCENC_TYPE_U8 then 1
  else if kind =? Astcenc.ASTCENC_TYPE_F16 then 2
  else 4.

(** The image-init function of an element kind. *)
Definition astc_native_image_init (kind : Z) :=
  if kind =? Astcenc.ASTCENC_TYPE_U8 then Bridge.astc_native_image_init_u8
  else if kind =? Astcenc.ASTCENC_TYPE_F16 then Bridge.astc_native_image_init_f16
  else Bridge.astc_native_image_init_f32.

(** An image owns a table of as many entries as it has slices, or none
    yet. *)
Definition image_wf (img : Astcenc.astcenc_image) : Prop :=
  match Astcenc.data img with
  | None => True
  | Some table => Z.of_nat (length table) = Astcenc.dim_z img
  end.

(** The layout the design description asks of a slice-pointer table:
    [dim_z] entries, slice [z] at [z * dim_x * dim_y * 4 * elementSize]
    bytes from the base. *)
Definition slice_layout (base dim_x dim_y dim_z kind : Z) (table : list Z) : Prop :=
  Z.of_nat (length table) = dim_z
  /\ forall z, 0 <= z < dim_z ->
               table !! Z.to_nat z
               = Some (Machine.ptr_offset base (z * dim_x * dim_y * 4 * element_size kind)).

(** The deliveries the design description asks of one call of
    [astc_native_compress_image_ex], given those of a codec run under a
    handle: none when the call is refused or registers 0, else those
    of its codec run under its own handle. *)
Definition call_deliveries
           (deliveries : Z -> Bridge.codec_run -> list (Z * Astcenc.float))
           (args : Bridge.compress_args) (codec : Bridge.compress_fn)
  : list (Z * Astcenc.float) :=
  if (Bridge.ctxp args =? 0) || (Bridge.rgba args =? 0) || (Bridge.out_data args =? 0)
     || (Bridge.arg_dim_x args =? 0) || (Bridge.arg_dim_y args =? 0)
     || (Bridge.arg_dim_z args =? 0)
  then []
  else
    match Bridge.compress_transient_image
            (Bridge.arg_data_type args) (Bridge.arg_dim_x args)
            (Bridge.arg_dim_y args) (Bridge.arg_dim_z args) (Bridge.rgba args) with
    | None => []
    | Some img =>
        if Bridge.progress_handle args =? 0 then []
        else deliveries (Bridge.progress_handle args)
                        (codec (Bridge.ctxp args) img
                               (Bridge.makeSwizzle (Bridge.in_swz args))
                               (Bridge.out_data args) (Bridge.out_len args)
                               (Bridge.thread_index args))
    end.

(** The deliveries the design description asks of a codec run under a
    registered [handle]: each progress event of the run delivers
    [handle] once, in order; the calls the Go side makes meanwhile
    deliver in between, each under its own handle. *)
Fixpoint deliveries (handle : Z) (run : Bridge.codec_run) {struct run}
  : list (Z * Astcenc.float) :=
  match run with
  | Bridge.Return _ => []
  | Bridge.Progress progress go rest =>
      (handle, progress) :: go_deliveries go ++ deliveries handle rest
  end
with go_deliveries (go : Bridge.go_run) {struct go} : list (Z * Astcenc.float) :=
  match go with
  | Bridge.GoReturn => []
  | Bridge.GoCompress args codec rest =>
      call_deliveries deliveries args codec ++ go_deliveries rest
  end.

(** The progress values a codec run raises itself, in order, and its
    error code. *)
Fixpoint own_events (run : Bridge.codec_run) : list Astcenc.float :=
  match run with
  | Bridge.Return _ => []
  | Bridge.Progress progress _ rest => progress :: own_events rest
  end.

Fixpoint returned (run : Bridge.codec_run) : Astcenc.astcenc_error :=
  match run with
  | Bridge.Return err => err
  | Bridge.Progress _ _ rest => returned rest
  end.

(** A run during which the Go side never calls back into the bridge. *)
Fixpoint flat (run : Bridge.codec_run) : Prop :=
  match run with
  | Bridge.Return _ => True
  | Bridge.Progress _ go rest => go = Bridge.GoReturn /\ flat rest
  end.

(** A call of [astc_native_compress_image_ex] that passes the bridge's
    own tests: non-null context, input and output, no zero dimension,
    a known element kind. *)
Definition accepted (args : Bridge.compress_args) : Prop :=
  Bridge.ctxp args <> 0 /\ Bridge.rgba args <> 0 /\ Bridge.out_data args <> 0
  /\ Bridge.arg_dim_x args <> 0 /\ Bridge.arg_dim_y args <> 0 /\ Bridge.arg_dim_z args <> 0
  /\ (Bridge.arg_data_type args = Astcenc.ASTCENC_TYPE_U8
      \/ Bridge.arg_data_type args = Astcenc.ASTCENC_TYPE_F16
      \/ Bridge.arg_data_type args = Astcenc.ASTCENC_TYPE_F32).

(** The call on thread [t] hands the transient image to the codec,
    returns the codec's error code, and delivers its registered handle
    to the sink once for each progress event the codec raises. *)
Definition delivers_handle (codec : Bridge.compress_fn) (t : Bridge.thread)
           (args : Bridge.compress_args) (w : Bridge.world) : Prop :=
  exists img,
    Bridge.compress_transient_image
      (Bridge.arg_data_type args) (Bridge.arg_dim_x args)
      (Bridge.arg_dim_y args) (Bridge.arg_dim_z args) (Bridge.rgba args) = Some img
    /\ let run := codec (Bridge.ctxp args) img (Bridge.makeSwizzle (Bridge.in_swz args))
                        (Bridge.out_data args) (Bridge.out_len args)
                        (Bridge.thread_index args) in
       let result := Bridge.astc_native_compress_image_ex codec t args w in
       fst result = returned run
       /\ Bridge.go_progress_calls (snd result)
          = Bridge.go_progress_calls w ++ deliveries (Bridge.progress_handle args) run
       /\ (flat run ->
           Bridge.go_progress_calls (snd result)
           = Bridge.go_progress_calls w
             ++ map (fun progress => (Bridge.progress_handle args, progress))
                    (own_events run)).

(** ** Vocabulary of the format description for the container *)

(** A file is a list of bytes. *)
Definition is_bytes (file : list Z) : Prop := Forall (fun b => 0 <= b < 256) file.

(** The sixteen header bytes of the format description for the six
    values, each reduced to the width of its field. *)
Definition header_bytes (bx by_ bz sx sy sz : Z) : list Z :=
  [ 0x13; 0xAB; 0xA1; 0x5C;
    bx mod 256; by_ mod 256; bz mod 256;
    sx mod 256; (sx / 256) mod 256; (sx / 65536) mod 256;
    sy mod 256; (sy / 256) mod 256; (sy / 65536) mod 256;
    sz mod 256; (sz / 256) mod 256; (sz / 65536) mod 256 ].

(** ** The error classes of the container format

    The harness has no error codes; the classes of the format
    description are told apart by the message thrown. *)

Inductive container_error : Type := Truncated | BadMagic | InvalidArgument.

Definition error_class (what : string) : option container_error :=
  if String.eqb what "input too small" then Some Truncated
  else if String.eqb what "truncated ASTC data" then Some Truncated
  else if String.eqb what "invalid ASTC magic" then Some BadMagic
  else if String.eqb what "invalid ASTC header" then Some InvalidArgument
  else None.

(** Ceiling division of the format description, by floor division of
  the negated numerator. *)
Definition ceil_div (n b : Z) : Z := - ((- n) / b).

(** [blockCount] and [totalFileSize] of the format description, over
  unbounded integers. *)
Definition blockCount (bx by_ bz w h d : Z) : Z :=
ceil_div w bx * ceil_div h by_ * ceil_div d bz.

Definition totalFileSize (bx by_ bz w h d : Z) : Z :=
16 + blockCount bx by_ bz w h d * 16.

(** ** The rest of [astcbenchcpp.cpp] *)

Module Harness.
Import Machine Container.

(** Arithmetic on [uint64_t] and [int]. *)
Definition to_uint64 (v : Z) : Z := v mod 2 ^ 64.
Definition int_mul (a b : Z) : Z := to_int (a * b).

(** [get_flag_value]: the loop over [i] with [i + 1 < args.size()],
    [fuel] bounding the number of rounds; [Some out] for [true]. *)
Fixpoint get_flag_value_from (args : list string) (key : string) (i : nat) (fuel : nat)
  : option string :=
  match fuel with
  | O => None
  | S fuel =>
      if (i + 1 <? length args)%nat
      then if String.eqb (nth i args EmptyString) key
           then Some (nth (i + 1) args EmptyString)
           else get_flag_value_from args key (i + 1) fuel
      else None
  end.

Definition get_flag_value (args : list string) (key : string) : option string :=
  get_flag_value_from args key 0 (length args).

(** [get_flag_string] *)
Definition get_flag_string (args : list string) (key def : string) : string :=
  match get_flag_value args key with
  | None => def
  | Some v => v
  end.

(** [has_flag] *)
Definition has_flag (args : list string) (key : string) : bool :=
  existsb (fun a => String.eqb a key) args.

(** [fnv1a64(seed, data, len)] with [data] the [len] bytes. *)
Definition offset64 : Z := 14695981039346656037.
Definition prime64 : Z := 1099511628211.

Definition fnv1a64 (seed : Z) (data : list Z) : Z :=
  let h := if negb (seed =? 0) then seed else offset64 in
  fold_left (fun h byte => to_uint64 (to_uint64 (Z.lxor h byte) * prime64)) data h.

(** The checksum the benchmark loops accumulate over the outputs of
    their iterations, starting from 0. *)
Definition checksum_of (outputs : list (list Z)) : Z :=
  fold_left fnv1a64 outputs 0.

(** [hex_u64]: sixteen characters, set pairwise for byte 7 down to
    byte 0 of [v]. *)
Definition hexd : list ascii := list_ascii_of_string "0123456789abcdef".

Definition hex_u64 (v : Z) : list ascii :=
  let out := repeat "0"%char 16 in
  fold_left
    (fun out i =>
       let b := to_uint8 (Z.shiftr v (56 - Z.of_nat i * 8)) in
       let out := <[(i * 2 + 0)%nat := nth (Z.to_nat (Z.shiftr b 4)) hexd "000"%char]> out in
       <[(i * 2 + 1)%nat := nth (Z.to_nat (Z.land b 0xF)) hexd "000"%char]> out)
    (seq 0 8) out.

(** [fill_pattern_rgba8]: three nested loops over [int] counters, four
    stores for each texel. *)
Definition range (n : Z) : list Z := map Z.of_nat (seq 0 (Z.to_nat n)).

Definition fill_texel (pix : list Z) (width height : Z) (z y x : Z) : list Z :=
  let off :=
    Z.to_nat (to_size_t (int_mul (int_add (int_mul (int_add (int_mul z height) y) width) x) 4)) in
  let r := to_uint32 (int_add (int_add (int_mul x 3) (int_mul y 5)) (int_mul z 7)) in
  let g := to_uint32 (int_add (int_add (int_mul x 11) (int_mul y 13)) (int_mul z 17)) in
  let b := to_uint32 (Z.lxor (Z.lxor x y) z) in
  let a :=
    to_uint32
      (255 - to_uint32
               (Z.land (int_add (int_add (int_mul x 5) (int_mul y 7)) (int_mul z 3)) 0xFF)) in
  let pix := <[(off + 0)%nat := to_uint8 r]> pix in
  let pix := <[(off + 1)%nat := to_uint8 g]> pix in
  let pix := <[(off + 2)%nat := to_uint8 b]> pix in
  <[(off + 3)%nat := to_uint8 a]> pix.

Definition fill_pattern_rgba8 (pix : list Z) (width height depth : Z) : list Z :=
  fold_left
    (fun pix z =>
       fold_left
         (fun pix y =>
            fold_left (fun pix x => fill_texel pix width height z y x) (range width) pix)
         (range height) pix)
    (range depth) pix.

(** The slice tables of [decode_main] and [encode_main]: a vector of
    [sz] null pointers, entry [z] set to
    [out.data() + size_t(z) * size_t(sx) * size_t(sy) * 4], the data
    pointing to elements of [elem] bytes. *)
Definition main_slices (elem base sx sy sz : Z) : list Z :=
  fold_left
    (fun slices z =>
       <[z := ptr_add elem base
                      (size_mul
                         (size_mul (size_mul (to_size_t (Z.of_nat z)) (to_size_t sx))
                                   (to_size_t sy)) 4)]> slices)
    (seq 0 (Z.to_nat sz)) (replicate (Z.to_nat (to_size_t sz)) 0).

(** [out_len] of [encode_main]: the block counts as in [decode_main],
    times 16. *)
Definition encode_main_out_len (bx by_ bz w h d : Z) : Z :=
  size_mul (total_blocks bx by_ bz w h d) 16.

End Harness.

(** ** Context creation in [bridge.cpp] *)

Module Context.
Import Machine Astcenc Bridge.

(** What a [progress_callback] field holds. *)
Inductive callback : Type :=
| Null
| Trampoline
| Other (address : Z).

(** Modelled from the spec: [astcenc_config] of [astcenc.h], the
    fields the bridge copies and the progress callback. *)
Record astcenc_config : Type := mk_config {
  cfg_profile : Z;
  cfg_flags : Z;
  cfg_block_x : Z; cfg_block_y : Z; cfg_block_z : Z;
  cfg_cw_r_weight : float; cfg_cw_g_weight : float;
  cfg_cw_b_weight : float; cfg_cw_a_weight : float;
  cfg_a_scale_radius : Z;
  cfg_rgbm_m_scale : float;
  cfg_tune_partition_count_limit : Z;
  cfg_tune_2partition_index_limit : Z;
  cfg_tune_3partition_index_limit : Z;
  cfg_tune_4partition_index_limit : Z;
  cfg_tune_block_mode_limit : Z;
  cfg_tune_refinement_limit : Z;
  cfg_tune_candidate_limit : Z;
  cfg_tune_2partitioning_candidate_limit : Z;
  cfg_tune_3partitioning_candidate_limit : Z;
  cfg_tune_4partitioning_candidate_limit : Z;
  cfg_tune_db_limit : float;
  cfg_tune_mse_overshoot : float;
  cfg_tune_2partition_early_out_limit_factor : float;
  cfg_tune_3partition_early_out_limit_factor : float;
  cfg_tune_2plane_early_out_limit_correlation : float;
  cfg_tune_search_mode0_enable : float;
  cfg_progress_callback : callback
}.

(** [astc_native_config_data] of [bridge.h] *)
Record astc_native_config_data : Type := mk_config_data {
  profile : Z;
  flags : Z;
  block_x : Z; block_y : Z; block_z : Z;
  cw_r_weight : float; cw_g_weight : float; cw_b_weight : float; cw_a_weight : float;
  a_scale_radius : Z;
  rgbm_m_scale : float;
  tune_partition_count_limit : Z;
  tune_2partition_index_limit : Z;
  tune_3partition_index_limit : Z;
  tune_4partition_index_limit : Z;
  tune_block_mode_limit : Z;
  tune_refinement_limit : Z;
  tune_candidate_limit : Z;
  tune_2partitioning_candidate_limit : Z;
  tune_3partitioning_candidate_limit : Z;
  tune_4partitioning_candidate_limit : Z;
  tune_db_limit : float;
  tune_mse_overshoot : float;
  tune_2partition_early_out_limit_factor : float;
  tune_3partition_early_out_limit_factor : float;
  tune_2plane_early_out_limit_correlation : float;
  tune_search_mode0_enable : float
}.

(** The codec's [astcenc_config_init] and [astcenc_context_alloc]:
    each returns an error code and what it stored through its last
    argument. *)
Definition config_init_fn : Type :=
  Z -> Z -> Z -> Z -> float -> Z -> astcenc_error * astcenc_config.
Definition context_alloc_fn : Type :=
  astcenc_config -> Z -> astcenc_error * Z.

(** [astc_native_context_create].  [out_ctx] is what the pointer
    refers to, [None] for a null pointer; the result is the error code
    and what it refers to afterwards. *)
Definition astc_native_context_create
           (astcenc_config_init : config_init_fn)
           (astcenc_context_alloc : context_alloc_fn)
           (profile block_x block_y block_z : Z) (quality : float)
           (flags thread_count : Z) (out_ctx : option Z) : astcenc_error * option Z :=
  match out_ctx with
  | None => (ASTCENC_ERR_BAD_PARAM, None)
  | Some _ =>
      let (err, config) :=
        astcenc_config_init profile block_x block_y block_z quality flags in
      if is_error err then (err, out_ctx)
      else
        let (err, ctx) := astcenc_context_alloc config thread_count in
        if is_error err then (err, out_ctx)
        else (ASTCENC_SUCCESS, Some ctx)
  end.

(** [astc_native_config_init_data] *)
Definition astc_native_config_init_data
           (astcenc_config_init : config_init_fn)
           (profile block_x block_y block_z : Z) (quality : float) (flags : Z)
           (out_cfg : option astc_native_config_data)
  : astcenc_error * option astc_native_config_data :=
  match out_cfg with
  | None => (ASTCENC_ERR_BAD_PARAM, None)
  | Some _ =>
      let (err, cfg) :=
        astcenc_config_init profile block_x block_y block_z quality flags in
      if is_error err then (err, out_cfg)
      else
        (ASTCENC_SUCCESS,
         Some {| profile := cfg_profile cfg;
                 flags := cfg_flags cfg;
                 block_x := cfg_block_x cfg;
                 block_y := cfg_block_y cfg;
                 block_z := cfg_block_z cfg;
                 cw_r_weight := cfg_cw_r_weight cfg;
                 cw_g_weight := cfg_cw_g_weight cfg;
                 cw_b_weight := cfg_cw_b_weight cfg;
                 cw_a_weight := cfg_cw_a_weight cfg;
                 a_scale_radius := cfg_a_scale_radius cfg;
                 rgbm_m_scale := cfg_rgbm_m_scale cfg;
                 tune_partition_count_limit := cfg_tune_partition_count_limit cfg;
                 tune_2partition_index_limit := cfg_tune_2partition_index_limit cfg;
                 tune_3partition_index_limit := cfg_tune_3partition_index_limit cfg;
                 tune_4partition_index_limit := cfg_tune_4partition_index_limit cfg;
                 tune_block_mode_limit := cfg_tune_block_mode_limit cfg;
                 tune_refinement_limit := cfg_tune_refinement_limit cfg;
                 tune_candidate_limit := cfg_tune_candidate_limit cfg;
                 tune_2partitioning_candidate_limit :=
                   cfg_tune_2partitioning_candidate_limit cfg;
                 tune_3partitioning_candidate_limit :=
                   cfg_tune_3partitioning_candidate_limit cfg;
                 tune_4partitioning_candidate_limit :=
                   cfg_tune_4partitioning_candidate_limit cfg;
                 tune_db_limit := cfg_tune_db_limit cfg;
                 tune_mse_overshoot := cfg_tune_mse_overshoot cfg;
                 tune_2partition_early_out_limit_factor :=
                   cfg_tune_2partition_early_out_limit_factor cfg;
                 tune_3partition_early_out_limit_factor :=
                   cfg_tune_3partition_early_out_limit_factor cfg;
                 tune_2plane_early_out_limit_correlation :=
                   cfg_tune_2plane_early_out_limit_correlation cfg;
                 tune_search_mode0_enable := cfg_tune_search_mode0_enable cfg |})
  end.

(** The configuration [astc_native_context_alloc_from_data] builds
    from [in_cfg] before it calls the codec. *)
Definition config_of_data (in_cfg : astc_native_config_data) (enable_progress_callback : Z)
  : astcenc_config :=
  {| cfg_profile := profile in_cfg;
     cfg_flags := flags in_cfg;
     cfg_block_x := block_x in_cfg;
     cfg_block_y := block_y in_cfg;
     cfg_block_z := block_z in_cfg;
     cfg_cw_r_weight := cw_r_weight in_cfg;
     cfg_cw_g_weight := cw_g_weight in_cfg;
     cfg_cw_b_weight := cw_b_weight in_cfg;
     cfg_cw_a_weight := cw_a_weight in_cfg;
     cfg_a_scale_radius := a_scale_radius in_cfg;
     cfg_rgbm_m_scale := rgbm_m_scale in_cfg;
     cfg_tune_partition_count_limit := tune_partition_count_limit in_cfg;
     cfg_tune_2partition_index_limit := tune_2partition_index_limit in_cfg;
     cfg_tune_3partition_index_limit := tune_3partition_index_limit in_cfg;
     cfg_tune_4partition_index_limit := tune_4partition_index_limit in_cfg;
     cfg_tune_block_mode_limit := tune_block_mode_limit in_cfg;
     cfg_tune_refinement_limit := tune_refinement_limit in_cfg;
     cfg_tune_candidate_limit := tune_candidate_limit in_cfg;
     cfg_tune_2partitioning_candidate_limit := tune_2partitioning_candidate_limit in_cfg;
     cfg_tune_3partitioning_candidate_limit := tune_3partitioning_candidate_limit in_cfg;
     cfg_tune_4partitioning_candidate_limit := tune_4partitioning_candidate_limit in_cfg;
     cfg_tune_db_limit := tune_db_limit in_cfg;
     cfg_tune_mse_overshoot := tune_mse_overshoot in_cfg;
     cfg_tune_2partition_early_out_limit_factor :=
       tune_2partition_early_out_limit_factor in_cfg;
     cfg_tune_3partition_early_out_limit_factor :=
       tune_3partition_early_out_limit_factor in_cfg;
     cfg_tune_2plane_early_out_limit_correlation :=
       tune_2plane_early_out_limit_correlation in_cfg;
     cfg_tune_search_mode0_enable := tune_search_mode0_enable in_cfg;
     cfg_progress_callback :=
       if negb (enable_progress_callback =? 0) then Trampoline else Null |}.

(** [astc_native_context_alloc_from_data] *)
Definition astc_native_context_alloc_from_data
           (astcenc_context_alloc : context_alloc_fn)
           (in_cfg : option astc_native_config_data)
           (thread_count enable_progress_callback : Z) (out_ctx : option Z)
  : astcenc_error * option Z :=
  match in_cfg, out_ctx with
  | Some in_cfg, Some _ =>
      let cfg := config_of_data in_cfg enable_progress_callback in
      let (err, ctx) := astcenc_context_alloc cfg thread_count in
      if is_error err then (err, out_ctx)
      else (ASTCENC_SUCCESS, Some ctx)
  | _, _ => (ASTCENC_ERR_BAD_PARAM, out_ctx)
  end.

End Context.

(** ** Vocabulary for the harness *)

(** The value of a hexadecimal digit, and of a string of them. *)
Definition hex_digit (c : ascii) : Z :=
  let n := Z.of_nat (nat_of_ascii c) in
  if (48 <=? n) && (n <=? 57) then n - 48
  else if (97 <=? n) && (n <=? 102) then n - 87
  else -1.

Definition hex_value (s : list ascii) : Z :=
  fold_left (fun acc c => acc * 16 + hex_digit c) s 0.

(** The texels in the order the loops of [fill_pattern_rgba8] visit
    them, as [(z, y, x)]. *)
Definition pattern_coords (width height depth : Z) : list (Z * Z * Z) :=
  flat_map
    (fun z => flat_map (fun y => map (fun x => (z, y, x)) (Harness.range width))
                       (Harness.range height))
    (Harness.range depth).

(** A configuration with its progress callback replaced. *)
Definition with_callback (cfg : Context.astcenc_config) (cb : Context.callback)
  : Context.astcenc_config :=
  {| Context.cfg_profile := Context.cfg_profile cfg;
     Context.cfg_flags := Context.cfg_flags cfg;
     Context.cfg_block_x := Context.cfg_block_x cfg;
     Context.cfg_block_y := Context.cfg_block_y cfg;
     Context.cfg_block_z := Context.cfg_block_z cfg;
     Context.cfg_cw_r_weight := Context.cfg_cw_r_weight cfg;
     Context.cfg_cw_g_weight := Context.cfg_cw_g_weight cfg;
     Context.cfg_cw_b_weight := Context.cfg_cw_b_weight cfg;
     Context.cfg_cw_a_weight := Context.cfg_cw_a_weight cfg;
     Context.cfg_a_scale_radius := Context.cfg_a_scale_radius cfg;
     Context.cfg_rgbm_m_scale := Context.cfg_rgbm_m_scale cfg;
     Context.cfg_tune_partition_count_limit := Context.cfg_tune_partition_count_limit cfg;
     Context.cfg_tune_2partition_index_limit := Context.cfg_tune_2partition_index_limit cfg;
     Context.cfg_tune_3partition_index_limit := Context.cfg_tune_3partition_index_limit cfg;
     Context.cfg_tune_4partition_index_limit := Context.cfg_tune_4partition_index_limit cfg;
     Context.cfg_tune_block_mode_limit := Context.cfg_tune_block_mode_limit cfg;
     Context.cfg_tune_refinement_limit := Context.cfg_tune_refinement_limit cfg;
     Context.cfg_tune_candidate_limit := Context.cfg_tune_candidate_limit cfg;
     Context.cfg_tune_2partitioning_candidate_limit := Context.cfg_tune_2partitioning_candidate_limit cfg;
     Context.cfg_tune_3partitioning_candidate_limit := Context.cfg_tune_3partitioning_candidate_limit cfg;
     Context.cfg_tune_4partitioning_candidate_limit := Context.cfg_tune_4partitioning_candidate_limit cfg;
     Context.cfg_tune_db_limit := Context.cfg_tune_db_limit cfg;
     Context.cfg_tune_mse_overshoot := Context.cfg_tune_mse_overshoot cfg;
     Context.cfg_tune_2partition_early_out_limit_factor := Context.cfg_tune_2partition_early_out_limit_factor cfg;
     Context.cfg_tune_3partition_early_out_limit_factor := Context.cfg_tune_3partition_early_out_limit_factor cfg;
     Context.cfg_tune_2plane_early_out_limit_correlation := Context.cfg_tune_2plane_early_out_limit_correlation cfg;
     Context.cfg_tune_search_mode0_enable := Context.cfg_tune_search_mode0_enable cfg;
     Context.cfg_progress_callback := cb |}.

(** * Properties *)

(** ** Fixed-width arithmetic *)

Section MachineFacts.
Import Machine.

Lemma to_uint8_mod (v : Z) : to_uint8 v = v mod 256.
Proof. unfold to_uint8. change 255 with (Z.ones 8). now rewrite Z.land_ones by lia. Qed.

Lemma to_uint8_range (v : Z) : 0 <= to_uint8 v < 256.
Proof. rewrite to_uint8_mod. apply Z.mod_pos_bound. lia. Qed.

Lemma to_int_small (v : Z) : - 2 ^ 31 <= v < 2 ^ 31 -> to_int v = v.
Proof. intros H. unfold to_int. rewrite Z.mod_small; lia. Qed.

Lemma to_uint32_small (v : Z) : 0 <= v < 2 ^ 32 -> to_uint32 v = v.
Proof. intros H. unfold to_uint32. now rewrite Z.mod_small. Qed.

Lemma to_size_t_small (v : Z) : 0 <= v < 2 ^ 64 -> to_size_t v = v.
Proof. intros H. unfold to_size_t. now rewrite Z.mod_small. Qed.

Lemma to_size_t_range (v : Z) : 0 <= to_size_t v < 2 ^ 64.
Proof. unfold to_size_t. apply Z.mod_pos_bound. lia. Qed.

(** Bits that do not overlap add up. *)
Lemma lor_shiftl_add (a b k : Z) :
  0 <= k -> 0 <= a < 2 ^ k -> Z.lor a (Z.shiftl b k) = a + b * 2 ^ k.
Proof.
  intros Hk Ha.
  rewrite <- Z.shiftl_mul_pow2 by lia.
  assert (Hd : Z.land a (Z.shiftl b k) = 0).
  { apply Z.bits_inj'; intros n Hn. rewrite Z.land_spec, Z.bits_0.
    destruct (Z.ltb_spec n k).
    - rewrite Z.shiftl_spec_low by lia. apply andb_false_r.
    - rewrite <- (Z.mod_small a (2 ^ k)) by lia.
      rewrite Z.mod_pow2_bits_high by lia. reflexivity. }
  rewrite <- Z.lxor_lor by exact Hd. symmetry. apply Z.add_nocarry_lxor, Hd.
Qed.

(** The [k]-th byte of a 32-bit conversion is the [k]-th byte of the
    value. *)
Lemma byte_of_uint32 (v k : Z) :
  0 <= k <= 24 ->
  to_uint8 (Z.shiftr (to_uint32 v) k) = (v / 2 ^ k) mod 256.
Proof.
  intros Hk. rewrite to_uint8_mod, Z.shiftr_div_pow2 by lia. unfold to_uint32.
  apply Z.bits_inj'; intros n Hn.
  change 256 with (2 ^ 8).
  destruct (Z.ltb_spec n 8).
  - rewrite !Z.mod_pow2_bits_low by lia.
    rewrite !Z.div_pow2_bits by lia.
    rewrite Z.mod_pow2_bits_low by lia. reflexivity.
  - rewrite !Z.mod_pow2_bits_high by lia. reflexivity.
Qed.

End MachineFacts.

(** ** The container header *)

Section ContainerFacts.
Import Machine Container.

(** Three bytes read back little-endian. *)
Lemma read_u24_le_value (buf : list Z) (off : nat) :
  0 <= byte_at buf off 0 < 256 ->
  0 <= byte_at buf off 1 < 256 ->
  0 <= byte_at buf off 2 < 256 ->
  read_u24_le buf off
  = byte_at buf off 0 + 256 * byte_at buf off 1 + 65536 * byte_at buf off 2.
Proof.
  intros H0 H1 H2. unfold read_u24_le.
  rewrite !(to_uint32_small (byte_at _ _ _)) by lia.
  rewrite !Z.shiftl_mul_pow2 by lia.
  rewrite !to_uint32_small by lia.
  rewrite <- !Z.shiftl_mul_pow2 by lia.
  rewrite (lor_shiftl_add _ _ 8) by lia.
  rewrite (lor_shiftl_add _ _ 16) by lia. lia.
Qed.

Lemma write_u24_le_bytes (v : Z) :
  to_uint8 (to_uint32 v) = v mod 256
  /\ to_uint8 (Z.shiftr (to_uint32 v) 8) = (v / 256) mod 256
  /\ to_uint8 (Z.shiftr (to_uint32 v) 16) = (v / 65536) mod 256.
Proof.
  repeat split.
  - rewrite <- (Z.shiftr_0_r (to_uint32 v)), byte_of_uint32 by lia.
    now rewrite Z.div_1_r.
  - now rewrite byte_of_uint32 by lia.
  - now rewrite byte_of_uint32 by lia.
Qed.

Lemma write_astc_header_bytes (rest : list Z) (b0 b1 b2 b3 b4 b5 b6 b7 b8 b9 b10 b11 b12 b13 b14 b15 : Z)
      (bx by_ bz sx sy sz : Z) :
  write_astc_header
    (b0 :: b1 :: b2 :: b3 :: b4 :: b5 :: b6 :: b7 :: b8 :: b9 :: b10
        :: b11 :: b12 :: b13 :: b14 :: b15 :: rest) bx by_ bz sx sy sz
  = header_bytes bx by_ bz sx sy sz ++ rest.
Proof.
  unfold write_astc_header, write_u24_le, header_bytes.
  cbn [Nat.add list_insert insert app].
  destruct (write_u24_le_bytes sx) as (-> & -> & ->).
  destruct (write_u24_le_bytes sy) as (-> & -> & ->).
  destruct (write_u24_le_bytes sz) as (-> & -> & ->).
  now rewrite !to_uint8_mod.
Qed.

Lemma encode_main_file_cases (bx by_ bz w h d : Z) (out : list Z) :
  encode_main_file bx by_ bz w h d out
  = if (w <=? 0) || (h <=? 0) || (d <=? 0) then Thrown "invalid dimensions/iters"
    else Returned (header_bytes bx by_ bz w h d ++ out).
Proof.
  unfold encode_main_file.
  destruct ((w <=? 0) || (h <=? 0) || (d <=? 0)); [reflexivity |]. f_equal.
  cbn [Nat.add repeat].
  rewrite write_astc_header_bytes.
  reflexivity.
Qed.

Lemma encode_main_file_bytes (bx by_ bz w h d : Z) (out : list Z) :
  1 <= w -> 1 <= h -> 1 <= d ->
  encode_main_file bx by_ bz w h d out
  = Returned (header_bytes bx by_ bz w h d ++ out).
Proof.
  intros Hw Hh Hd. rewrite encode_main_file_cases.
  destruct (Z.leb_spec w 0); [lia |].
  destruct (Z.leb_spec h 0); [lia |].
  destruct (Z.leb_spec d 0); [lia |].
  reflexivity.
Qed.

Lemma byte_at_insert (buf : list Z) (i : nat) (x : Z) (off k : nat) :
  (i < length buf)%nat ->
  byte_at (<[i := x]> buf) off k
  = if Nat.eqb (off + k) i then x else byte_at buf off k.
Proof.
  intros Hi. unfold byte_at. rewrite !nth_lookup.
  destruct (Nat.eqb_spec (off + k) i) as [-> | Hne].
  - now rewrite list_lookup_insert_eq.
  - now rewrite list_lookup_insert_ne by congruence.
Qed.

Lemma u24_split (v : Z) :
  0 <= v < 2 ^ 24 ->
  v mod 256 + 256 * ((v / 256) mod 256) + 65536 * ((v / 65536) mod 256) = v.
Proof. intros Hv. Z.div_mod_to_equations. lia. Qed.

Lemma u24_join (b0 b1 b2 : Z) :
  0 <= b0 < 256 -> 0 <= b1 < 256 -> 0 <= b2 < 256 ->
  let v := b0 + 256 * b1 + 65536 * b2 in
  0 <= v < 2 ^ 24
  /\ v mod 256 = b0 /\ (v / 256) mod 256 = b1 /\ (v / 65536) mod 256 = b2.
Proof. intros H0 H1 H2 v. subst v. Z.div_mod_to_equations. lia. Qed.

(** Reading back what [write_u24_le] stored. *)
Lemma read_write_u24_le (buf : list Z) (off : nat) (v : Z) :
  (off + 2 < length buf)%nat ->
  0 <= v < 2 ^ 24 ->
  read_u24_le (write_u24_le buf off v) off = v.
Proof.
  intros Hlen Hv.
  assert (H32 : to_uint32 v = v) by (apply to_uint32_small; lia).
  destruct (write_u24_le_bytes v) as (E0 & E1 & E2). rewrite H32 in E0, E1, E2.
  assert (B : forall k, byte_at (write_u24_le buf off v) off k
                        = match k with
                          | O => v mod 256
                          | S O => (v / 256) mod 256
                          | S (S O) => (v / 65536) mod 256
                          | _ => byte_at buf off k
                          end).
  { intros k. unfold write_u24_le.
    rewrite !byte_at_insert by (rewrite ?length_insert; lia).
    rewrite E0, E1, E2.
    destruct k as [|[|[|k]]];
      repeat match goal with
             | |- context [Nat.eqb ?a ?b] => destruct (Nat.eqb_spec a b); try lia
             end; reflexivity. }
  rewrite read_u24_le_value; rewrite !B; try (apply Z.mod_pos_bound; lia).
  now apply u24_split.
Qed.

Lemma lookup_nth (l : list Z) (i : nat) :
  (i < length l)%nat -> l !! i = Some (nth i l 0).
Proof.
  intros Hi. destruct (lookup_lt_is_Some_2 l i Hi) as [x Hx].
  rewrite Hx. f_equal. symmetry. now apply nth_lookup_Some.
Qed.

(** Storing again what [read_u24_le] read changes nothing. *)
Lemma write_read_u24_le (buf : list Z) (off : nat) :
  (off + 2 < length buf)%nat ->
  0 <= byte_at buf off 0 < 256 ->
  0 <= byte_at buf off 1 < 256 ->
  0 <= byte_at buf off 2 < 256 ->
  write_u24_le buf off (read_u24_le buf off) = buf.
Proof.
  intros Hlen H0 H1 H2.
  rewrite read_u24_le_value by assumption.
  destruct (u24_join _ _ _ H0 H1 H2) as (Hv & J0 & J1 & J2).
  set (v := _ + _ + _) in *.
  destruct (write_u24_le_bytes v) as (E0 & E1 & E2).
  rewrite (to_uint32_small v) in E0, E1, E2 by lia.
  unfold write_u24_le. rewrite E0, E1, E2, J0, J1, J2.
  unfold byte_at in *.
  rewrite (list_insert_id buf (off + 0)) by (apply lookup_nth; lia).
  rewrite (list_insert_id buf (off + 1)) by (apply lookup_nth; lia).
  apply list_insert_id, lookup_nth. lia.
Qed.

Lemma decode_main_header_bytes (bx by_ bz w h d : Z) (out : list Z) :
  1 <= bx <= 255 -> 1 <= by_ <= 255 -> 1 <= bz <= 255 ->
  1 <= w <= 2 ^ 24 - 1 -> 1 <= h <= 2 ^ 24 - 1 -> 1 <= d <= 2 ^ 24 - 1 ->
  decode_main_header (header_bytes bx by_ bz w h d ++ out)
  = Returned (mk_header bx by_ bz w h d).
Proof.
  intros Hbx Hby Hbz Hw Hh Hd.
  unfold decode_main_header, header_bytes.
  rewrite length_app. cbn [length].
  destruct (Z.ltb_spec (Z.of_nat (16 + length out)) 16) as [Hlt | _]; [lia |].
  cbn [byte_at Nat.add nth app].
  rewrite !Z.eqb_refl. cbn [negb orb].
  rewrite !read_u24_le_value;
    cbn [byte_at Nat.add nth app]; try (apply Z.mod_pos_bound; lia).
  rewrite !u24_split by lia.
  rewrite !to_int_small by lia.
  rewrite !Z.mod_small by lia.
  repeat match goal with
         | |- context [?a <=? 0] => destruct (Z.leb_spec a 0); [lia |]
         end.
  reflexivity.
Qed.

(** C1. A header written by the encoder and parsed by the decoder gives
    back the block shape and the image size as written, for block
    dimensions in 1..255 and image dimensions in 1..2^24-1; on such
    dimensions the three-byte little-endian store and load are inverse
    to each other in both directions. *)
Theorem header_roundtrip (bx by_ bz w h d : Z) (out : list Z) :
  1 <= bx <= 255 -> 1 <= by_ <= 255 -> 1 <= bz <= 255 ->
  1 <= w <= 2 ^ 24 - 1 -> 1 <= h <= 2 ^ 24 - 1 -> 1 <= d <= 2 ^ 24 - 1 ->
  bind_outcome (encode_main_file bx by_ bz w h d out) decode_main_header
  = Returned (mk_header bx by_ bz w h d)
  /\ (forall out16, length out16 = 16%nat ->
        decode_main_header (write_astc_header out16 bx by_ bz w h d)
        = Returned (mk_header bx by_ bz w h d))
  /\ (forall buf off, (off + 2 < length buf)%nat ->
        read_u24_le (write_u24_le buf off w) off = w
        /\ read_u24_le (write_u24_le buf off h) off = h
        /\ read_u24_le (write_u24_le buf off d) off = d)
  /\ (forall p0 p1 p2 : Z,
        let bytes := [to_uint8 p0; to_uint8 p1; to_uint8 p2] in
        write_u24_le bytes 0 (read_u24_le bytes 0) = bytes).
Proof.
  intros Hbx Hby Hbz Hw Hh Hd. repeat split.
  - rewrite encode_main_file_bytes by lia. cbn [bind_outcome].
    now apply decode_main_header_bytes.
  - intros out16 Hlen.
    do 16 (destruct out16 as [| ? out16]; [discriminate Hlen |]).
    destruct out16; [| discriminate Hlen].
    rewrite write_astc_header_bytes. now apply decode_main_header_bytes.
  - apply read_write_u24_le; lia.
  - apply read_write_u24_le; lia.
  - apply read_write_u24_le; lia.
  - intros p0 p1 p2 bytes.
    apply write_read_u24_le; cbn [length byte_at Nat.add nth bytes];
      [lia | apply to_uint8_range ..].
Qed.

(** An instance: the header of a 12x8x1 image in 4x4x1 blocks. *)
Lemma header_roundtrip_witness :
  bind_outcome (encode_main_file 4 4 1 12 8 1 []) decode_main_header
  = Returned (mk_header 4 4 1 12 8 1).
Proof.
  exact (proj1 (header_roundtrip 4 4 1 12 8 1 []
                 ltac:(lia) ltac:(lia) ltac:(lia) ltac:(lia) ltac:(lia) ltac:(lia))).
Defined.

(** ** Block counts *)

(** [ceil_div] is the ceiling: the least [q] with [n <= q * b]. *)
Lemma ceil_div_spec (n b : Z) :
  0 < b -> b * (ceil_div n b - 1) < n <= b * ceil_div n b.
Proof. intros Hb. unfold ceil_div. Z.div_mod_to_equations. nia. Qed.

Lemma ceil_div_range (n b : Z) : 0 < b -> 0 < n -> 1 <= ceil_div n b <= n.
Proof. intros Hb Hn. pose proof (ceil_div_spec n b Hb). nia. Qed.

Lemma ceil_div_monotone (n n' b : Z) : 0 < b -> n <= n' -> ceil_div n b <= ceil_div n' b.
Proof.
  intros Hb Hn.
  pose proof (ceil_div_spec n b Hb). pose proof (ceil_div_spec n' b Hb). nia.
Qed.

(** On header values the [int] computation of a per-axis count neither
    overflows nor rounds differently from the ceiling. *)
Lemma blocks_along_ceil (s b : Z) :
  1 <= b <= 255 -> 1 <= s <= 2 ^ 24 - 1 -> blocks_along s b = ceil_div s b.
Proof.
  intros Hb Hs. unfold blocks_along, int_div, int_sub, int_add.
  rewrite (to_int_small (s + b)) by lia.
  rewrite (to_int_small (s + b - 1)) by lia.
  rewrite Z.quot_div_nonneg by lia.
  assert (E : (s + b - 1) / b = ceil_div s b).
  { unfold ceil_div. Z.div_mod_to_equations. nia. }
  rewrite E. pose proof (ceil_div_range s b). apply to_int_small. lia.
Qed.

Lemma total_blocks_mod (bx by_ bz w h d : Z) :
  1 <= bx <= 255 -> 1 <= by_ <= 255 -> 1 <= bz <= 255 ->
  1 <= w <= 2 ^ 24 - 1 -> 1 <= h <= 2 ^ 24 - 1 -> 1 <= d <= 2 ^ 24 - 1 ->
  total_blocks bx by_ bz w h d = blockCount bx by_ bz w h d mod 2 ^ 64.
Proof.
  intros Hbx Hby Hbz Hw Hh Hd. unfold total_blocks, blockCount.
  rewrite !blocks_along_ceil by assumption.
  pose proof (ceil_div_range w bx). pose proof (ceil_div_range h by_).
  pose proof (ceil_div_range d bz).
  rewrite !(to_size_t_small (ceil_div _ _)) by lia.
  unfold size_mul, to_size_t. now rewrite Z.mul_mod_idemp_l by lia.
Qed.

Lemma blockCount_pos (bx by_ bz w h d : Z) :
  0 < bx -> 0 < by_ -> 0 < bz -> 0 < w -> 0 < h -> 0 < d ->
  1 <= blockCount bx by_ bz w h d.
Proof.
  intros. unfold blockCount.
  pose proof (ceil_div_range w bx). pose proof (ceil_div_range h by_).
  pose proof (ceil_div_range d bz). nia.
Qed.

Lemma blockCount_monotone (bx by_ bz w h d w' h' d' : Z) :
  0 < bx -> 0 < by_ -> 0 < bz -> 0 < w -> 0 < h -> 0 < d ->
  w <= w' -> h <= h' -> d <= d' ->
  blockCount bx by_ bz w h d <= blockCount bx by_ bz w' h' d'.
Proof.
  intros. unfold blockCount.
  pose proof (ceil_div_range w bx). pose proof (ceil_div_range h by_).
  pose proof (ceil_div_range d bz).
  pose proof (ceil_div_monotone w w' bx). pose proof (ceil_div_monotone h h' by_).
  pose proof (ceil_div_monotone d d' bz).
  apply Z.mul_le_mono_nonneg; try nia.
Qed.

Lemma total_blocks_exact (bx by_ bz w h d : Z) :
  1 <= bx <= 255 -> 1 <= by_ <= 255 -> 1 <= bz <= 255 ->
  1 <= w <= 2 ^ 24 - 1 -> 1 <= h <= 2 ^ 24 - 1 -> 1 <= d <= 2 ^ 24 - 1 ->
  blockCount bx by_ bz w h d < 2 ^ 64 ->
  total_blocks bx by_ bz w h d = blockCount bx by_ bz w h d.
Proof.
  intros Hbx Hby Hbz Hw Hh Hd Hfit.
  rewrite total_blocks_mod by assumption.
  pose proof (blockCount_pos bx by_ bz w h d). apply Z.mod_small. lia.
Qed.

Lemma need_exact (bx by_ bz w h d : Z) :
  1 <= bx <= 255 -> 1 <= by_ <= 255 -> 1 <= bz <= 255 ->
  1 <= w <= 2 ^ 24 - 1 -> 1 <= h <= 2 ^ 24 - 1 -> 1 <= d <= 2 ^ 24 - 1 ->
  totalFileSize bx by_ bz w h d < 2 ^ 64 ->
  need (total_blocks bx by_ bz w h d) = totalFileSize bx by_ bz w h d.
Proof.
  intros Hbx Hby Hbz Hw Hh Hd Hfit.
  pose proof (blockCount_pos bx by_ bz w h d).
  unfold need, totalFileSize in *.
  rewrite total_blocks_exact by (assumption || lia).
  unfold size_add, size_mul.
  rewrite (to_size_t_small (_ * 16)) by lia.
  apply to_size_t_small. lia.
Qed.

(** C5, as amended.  For block dimensions in 1..255 and image dimensions
    in 1..2^24-1 (the values a header can hold) whose file size
    [16 + blockCount * 16] is below 2^64, the decoder's block count is
    [ceil(w/bx) * ceil(h/by) * ceil(d/bz)] and the size it requires of
    the file is [16 + blockCount * 16]; for block shape 4x4x1 and image
    12x8x1 these are 6 blocks and 112 bytes. *)
Theorem block_count_and_file_size (bx by_ bz w h d : Z) :
  1 <= bx <= 255 -> 1 <= by_ <= 255 -> 1 <= bz <= 255 ->
  1 <= w <= 2 ^ 24 - 1 -> 1 <= h <= 2 ^ 24 - 1 -> 1 <= d <= 2 ^ 24 - 1 ->
  totalFileSize bx by_ bz w h d < 2 ^ 64 ->
  total_blocks bx by_ bz w h d = ceil_div w bx * ceil_div h by_ * ceil_div d bz
  /\ need (total_blocks bx by_ bz w h d) = 16 + total_blocks bx by_ bz w h d * 16
  /\ total_blocks 4 4 1 12 8 1 = 6
  /\ need (total_blocks 4 4 1 12 8 1) = 112.
Proof.
  intros Hbx Hby Hbz Hw Hh Hd Hfit.
  pose proof (blockCount_pos bx by_ bz w h d).
  assert (Ht : total_blocks bx by_ bz w h d = blockCount bx by_ bz w h d).
  { apply total_blocks_exact; try assumption. unfold totalFileSize in Hfit. lia. }
  split; [| split; [| split]].
  - exact Ht.
  - rewrite need_exact by assumption. unfold totalFileSize. now rewrite Ht.
  - reflexivity.
  - reflexivity.
Qed.

(** An instance: 5x5x1 blocks over a 13x8x2 image. *)
Lemma block_count_and_file_size_witness :
  total_blocks 5 5 1 13 8 2 = 3 * 2 * 2 /\ need (total_blocks 5 5 1 13 8 2) = 16 + 12 * 16.
Proof.
  assert (Hfit : totalFileSize 5 5 1 13 8 2 < 2 ^ 64) by (vm_compute; reflexivity).
  destruct (block_count_and_file_size 5 5 1 13 8 2
              ltac:(lia) ltac:(lia) ltac:(lia) ltac:(lia) ltac:(lia) ltac:(lia) Hfit)
    as (Ht & Hn & _ & _).
  split.
  - exact Ht.
  - rewrite Hn, Ht. reflexivity.
Defined.

(** C5 as stated fails: a header holding 1x1x1 blocks and a 2^22-cubed
    image makes the three-factor product 2^66, which the [size_t]
    multiplication reduces to 0. *)
Lemma block_count_wraps :
  ~ (forall bx by_ bz w h d : Z,
        0 < bx -> 0 < by_ -> 0 < bz -> 0 < w -> 0 < h -> 0 < d ->
        total_blocks bx by_ bz w h d = ceil_div w bx * ceil_div h by_ * ceil_div d bz
        /\ need (total_blocks bx by_ bz w h d) = 16 + total_blocks bx by_ bz w h d * 16).
Proof.
  intros H.
  destruct (H 1 1 1 (2 ^ 22) (2 ^ 22) (2 ^ 22)) as [Ht _]; try lia.
  vm_compute in Ht. discriminate Ht.
Qed.

(** C9, as amended.  For block dimensions in 1..255 and image dimensions
    in 1..2^24-1, enlarging one of width, height or depth while the
    other two and the block shape stay fixed does not lower the
    decoder's block count, provided the count of the larger image is
    below 2^64. *)
Theorem total_blocks_monotone (bx by_ bz w h d w' h' d' : Z) :
  1 <= bx <= 255 -> 1 <= by_ <= 255 -> 1 <= bz <= 255 ->
  1 <= w <= 2 ^ 24 - 1 -> 1 <= h <= 2 ^ 24 - 1 -> 1 <= d <= 2 ^ 24 - 1 ->
  w' <= 2 ^ 24 - 1 -> h' <= 2 ^ 24 - 1 -> d' <= 2 ^ 24 - 1 ->
  (w <= w' -> blockCount bx by_ bz w' h d < 2 ^ 64 ->
   total_blocks bx by_ bz w h d <= total_blocks bx by_ bz w' h d)
  /\ (h <= h' -> blockCount bx by_ bz w h' d < 2 ^ 64 ->
      total_blocks bx by_ bz w h d <= total_blocks bx by_ bz w h' d)
  /\ (d <= d' -> blockCount bx by_ bz w h d' < 2 ^ 64 ->
      total_blocks bx by_ bz w h d <= total_blocks bx by_ bz w h d').
Proof.
  intros Hbx Hby Hbz Hw Hh Hd Hw' Hh' Hd'.
  repeat split; intros Hle Hfit.
  - pose proof (blockCount_monotone bx by_ bz w h d w' h d).
    rewrite !total_blocks_exact; try assumption; lia.
  - pose proof (blockCount_monotone bx by_ bz w h d w h' d).
    rewrite !total_blocks_exact; try assumption; lia.
  - pose proof (blockCount_monotone bx by_ bz w h d w h d').
    rewrite !total_blocks_exact; try assumption; lia.
Qed.

(** An instance: widening 12x8x1 to 13x8x1 under 4x4x1 blocks. *)
Lemma total_blocks_monotone_witness :
  total_blocks 4 4 1 12 8 1 <= total_blocks 4 4 1 13 8 1.
Proof.
  assert (Hfit : blockCount 4 4 1 13 8 1 < 2 ^ 64) by (vm_compute; reflexivity).
  refine (proj1 (total_blocks_monotone 4 4 1 12 8 1 13 8 1
                   ltac:(lia) ltac:(lia) ltac:(lia) ltac:(lia) ltac:(lia) ltac:(lia)
                   ltac:(lia) ltac:(lia) ltac:(lia)) _ Hfit).
  lia.
Defined.

(** C9 as stated fails: with 4x4x1 blocks and a 16777215 x 16777215
    image, depth 2^20-1 counts 2^64-2^44 blocks and depth 2^20 counts 0. *)
Lemma total_blocks_not_monotone :
  ~ (forall bx by_ bz w h d d' : Z,
        0 < bx -> 0 < by_ -> 0 < bz -> 0 < w -> 0 < h -> 0 < d ->
        d <= d' ->
        total_blocks bx by_ bz w h d <= total_blocks bx by_ bz w h d').
Proof.
  intros H.
  specialize (H 4 4 1 (2 ^ 24 - 1) (2 ^ 24 - 1) (2 ^ 20 - 1) (2 ^ 20)).
  assert (E : total_blocks 4 4 1 (2 ^ 24 - 1) (2 ^ 24 - 1) (2 ^ 20 - 1) = 2 ^ 64 - 2 ^ 44)
    by (vm_compute; reflexivity).
  assert (E' : total_blocks 4 4 1 (2 ^ 24 - 1) (2 ^ 24 - 1) (2 ^ 20) = 0)
    by (vm_compute; reflexivity).
  rewrite E, E' in H. lia.
Qed.

(** ** Writing a header never fails *)




(** ** The errors of the container reader *)

Lemma byte_at_range (file : list Z) (off i : nat) :
  is_bytes file -> 0 <= byte_at file off i < 256.
Proof.
  intros Hb. unfold byte_at.
  destruct (Nat.lt_ge_cases (off + i) (length file)) as [Hlt | Hge].
  - unfold is_bytes in Hb. rewrite List.Forall_forall in Hb.
    apply Hb, nth_In, Hlt.
  - rewrite nth_overflow by exact Hge. lia.
Qed.

Lemma read_u24_le_range (file : list Z) (off : nat) :
  is_bytes file -> 0 <= read_u24_le file off < 2 ^ 24.
Proof.
  intros Hb.
  pose proof (byte_at_range file off 0 Hb). pose proof (byte_at_range file off 1 Hb).
  pose proof (byte_at_range file off 2 Hb).
  rewrite read_u24_le_value by assumption. lia.
Qed.

(** A header the reader accepts holds values within the field ranges. *)
Lemma decode_main_header_ranges (file : list Z) (hd : astc_header) :
  is_bytes file ->
  decode_main_header file = Returned hd ->
  1 <= hdr_bx hd <= 255 /\ 1 <= hdr_by hd <= 255 /\ 1 <= hdr_bz hd <= 255
  /\ 1 <= hdr_sx hd <= 2 ^ 24 - 1 /\ 1 <= hdr_sy hd <= 2 ^ 24 - 1
  /\ 1 <= hdr_sz hd <= 2 ^ 24 - 1.
Proof.
  intros Hb. unfold decode_main_header.
  destruct (_ <? 16); [discriminate |].
  destruct (_ || _ || _ || _); [discriminate |].
  pose proof (byte_at_range file 0 4 Hb). pose proof (byte_at_range file 0 5 Hb).
  pose proof (byte_at_range file 0 6 Hb).
  pose proof (read_u24_le_range file 7 Hb). pose proof (read_u24_le_range file 10 Hb).
  pose proof (read_u24_le_range file 13 Hb).
  rewrite !to_int_small by lia.
  destruct (_ || _ || _ || _ || _ || _) eqn:Hz; [discriminate |].
  intros [= <-]. cbn [hdr_bx hdr_by hdr_bz hdr_sx hdr_sy hdr_sz].
  repeat (apply orb_false_elim in Hz; destruct Hz as [Hz ?]).
  repeat match goal with
         | H : (_ <=? 0) = false |- _ => apply Z.leb_gt in H
         end.
  lia.
Qed.

(** What the reader does get right: the three header errors in the
    order of the tests, and the truncation error whenever the size
    [16 + blockCount * 16] is below 2^64. *)
Lemma decode_main_container_errors (file : list Z) :
  is_bytes file ->
  ((length file < 16)%nat ->
     decode_main_container file = Thrown "input too small")
  /\ ((16 <= length file)%nat ->
      firstn 4 file <> [0x13; 0xAB; 0xA1; 0x5C] ->
      decode_main_container file = Thrown "invalid ASTC magic")
  /\ ((16 <= length file)%nat ->
      firstn 4 file = [0x13; 0xAB; 0xA1; 0x5C] ->
      byte_at file 0 4 = 0 \/ byte_at file 0 5 = 0 \/ byte_at file 0 6 = 0
      \/ read_u24_le file 7 = 0 \/ read_u24_le file 10 = 0 \/ read_u24_le file 13 = 0 ->
      decode_main_container file = Thrown "invalid ASTC header")
  /\ (forall hd,
        decode_main_header file = Returned hd ->
        let fsize := totalFileSize (hdr_bx hd) (hdr_by hd) (hdr_bz hd)
                                   (hdr_sx hd) (hdr_sy hd) (hdr_sz hd) in
        fsize < 2 ^ 64 ->
        Z.of_nat (length file) < fsize ->
        decode_main_container file = Thrown "truncated ASTC data").
Proof.
  intros Hb. unfold decode_main_container.
  split; [| split; [| split]].
  - intros Hlen. unfold decode_main_header.
    destruct (Z.ltb_spec (Z.of_nat (length file)) 16); [reflexivity | lia].
  - intros Hlen Hmagic. unfold decode_main_header.
    destruct (Z.ltb_spec (Z.of_nat (length file)) 16); [lia |].
    destruct (_ || _ || _ || _) eqn:Hm; [reflexivity |].
    exfalso. apply Hmagic.
    repeat (apply orb_false_elim in Hm; destruct Hm as [Hm ?]).
    repeat match goal with
           | H : negb (_ =? _) = false |- _ =>
               apply negb_false_iff, Z.eqb_eq in H
           end.
    unfold byte_at in *.
    do 4 (destruct file as [| ? file]; [cbn [length] in Hlen; lia |]).
    cbn [Nat.add nth] in *. subst. reflexivity.
  - intros Hlen Hmagic Hzero. unfold decode_main_header.
    destruct (Z.ltb_spec (Z.of_nat (length file)) 16); [lia |].
    assert (Hm : negb (byte_at file 0 0 =? 19) || negb (byte_at file 0 1 =? 171)
                 || negb (byte_at file 0 2 =? 161) || negb (byte_at file 0 3 =? 92)
                 = false).
    { unfold byte_at.
      do 4 (destruct file as [| ? file]; [cbn [length] in Hlen; lia |]).
      cbn [firstn] in Hmagic. injection Hmagic; intros; subst.
      reflexivity. }
    rewrite Hm.
    pose proof (read_u24_le_range file 7 Hb). pose proof (read_u24_le_range file 10 Hb).
    pose proof (read_u24_le_range file 13 Hb).
    rewrite !to_int_small by lia.
    destruct (_ || _ || _ || _ || _ || _) eqn:Hz; [reflexivity |].
    repeat (apply orb_false_elim in Hz; destruct Hz as [Hz ?]).
    repeat match goal with
           | H : (_ <=? 0) = false |- _ => apply Z.leb_gt in H
           end.
    lia.
  - intros hd Hhd Hfit Hshort. rewrite Hhd. cbn [bind_outcome].
    destruct (decode_main_header_ranges file hd Hb Hhd) as (? & ? & ? & ? & ? & ?).
    unfold decode_main_blocks.
    rewrite need_exact by assumption.
    destruct (Z.ltb_spec (Z.of_nat (length file))
                (totalFileSize (hdr_bx hd) (hdr_by hd) (hdr_bz hd)
                               (hdr_sx hd) (hdr_sy hd) (hdr_sz hd)));
      [reflexivity | lia].
Qed.

(** C8 at its failing input.  A 16-byte file whose header holds 4x4x1
    blocks and a 16777215 x 16777215 x 1048576 image is 2^68 bytes
    short of [16 + blockCount * 16], yet the reader accepts it: the
    block count 2^64 is reduced to 0 and the required size to 16. *)
Theorem decode_main_container_accepts_short_file :
  let file := [0x13; 0xAB; 0xA1; 0x5C; 4; 4; 1;
               0xFF; 0xFF; 0xFF; 0xFF; 0xFF; 0xFF; 0x00; 0x00; 0x10] in
  is_bytes file
  /\ blockCount 4 4 1 (2 ^ 24 - 1) (2 ^ 24 - 1) (2 ^ 20) = 2 ^ 64
  /\ Z.of_nat (length file) < totalFileSize 4 4 1 (2 ^ 24 - 1) (2 ^ 24 - 1) (2 ^ 20)
  /\ decode_main_container file
     = Returned (mk_file (mk_header 4 4 1 (2 ^ 24 - 1) (2 ^ 24 - 1) (2 ^ 20)) 0 0).
Proof.
  intros file. split; [| split; [| split]].
  - unfold file, is_bytes. repeat (apply List.Forall_cons; [lia |]). apply List.Forall_nil.
  - vm_compute. reflexivity.
  - vm_compute. reflexivity.
  - vm_compute. reflexivity.
Qed.

End ContainerFacts.

(** ** Slice-pointer tables *)

Section SliceFacts.
Import Machine Astcenc Bridge.

Lemma mod_mul_congr (a a' b b' m : Z) :
  a mod m = a' mod m -> b mod m = b' mod m -> (a * b) mod m = (a' * b') mod m.
Proof. intros Ha Hb. rewrite (Zmult_mod a b), (Zmult_mod a' b'), Ha, Hb. reflexivity. Qed.

Lemma mod_add_congr (a a' b b' m : Z) :
  a mod m = a' mod m -> b mod m = b' mod m -> (a + b) mod m = (a' + b') mod m.
Proof. intros Ha Hb. rewrite (Zplus_mod a b), (Zplus_mod a' b'), Ha, Hb. reflexivity. Qed.

(** The address stored for slice [z], as one offset from the base. *)
Lemma slice_address (elem base dim_x dim_y z : Z) :
  ptr_add elem base (size_mul (to_size_t z) (slice_stride dim_x dim_y))
  = ptr_offset base (z * dim_x * dim_y * 4 * elem).
Proof.
  unfold ptr_add, ptr_offset, slice_stride, size_mul, to_size_t.
  generalize (2 ^ 64). intros m.
  apply mod_add_congr; [reflexivity |].
  apply mod_mul_congr; [| reflexivity].
  rewrite Zmod_mod.
  replace (z * dim_x * dim_y * 4) with (z * (dim_x * dim_y * 4)) by ring.
  apply mod_mul_congr; [apply Zmod_mod |].
  rewrite Zmod_mod.
  apply mod_mul_congr; [| reflexivity].
  rewrite Zmod_mod. symmetry. apply Zmult_mod.
Qed.

(** The loop over the first [n] slices sets just these entries. *)
Lemma fill_slices_prefix (f : nat -> Z) (n : nat) (slices : list Z) :
  (n <= length slices)%nat ->
  let filled := fold_left (fun s z => <[z := f z]> s) (seq 0 n) slices in
  length filled = length slices
  /\ (forall z, (z < n)%nat -> filled !! z = Some (f z))
  /\ (forall z, (n <= z)%nat -> filled !! z = slices !! z).
Proof.
  induction n as [| n IH]; intros Hn; cbn zeta.
  - cbn [seq fold_left]. split; [reflexivity | split; [intros z Hz; lia | reflexivity]].
  - rewrite seq_S, fold_left_app. cbn [Nat.add fold_left].
    destruct IH as (Hlen & Hlow & Hhigh); [lia |].
    split; [| split].
    + now rewrite length_insert.
    + intros z Hz. destruct (Nat.eq_dec z n) as [-> | Hne].
      * apply list_lookup_insert_eq. lia.
      * rewrite list_lookup_insert_ne by congruence. apply Hlow. lia.
    + intros z Hz. rewrite list_lookup_insert_ne by lia. apply Hhigh. lia.
Qed.

Lemma fill_slices_table (elem base dim_x dim_y dim_z : Z) (slices : list Z) :
  0 <= dim_z ->
  Z.of_nat (length slices) = dim_z ->
  let table := fill_slices elem base (slice_stride dim_x dim_y) dim_z slices in
  Z.of_nat (length table) = dim_z
  /\ forall z, 0 <= z < dim_z ->
               table !! Z.to_nat z = Some (ptr_offset base (z * dim_x * dim_y * 4 * elem)).
Proof.
  intros Hz Hlen table. unfold fill_slices in table.
  destruct (fill_slices_prefix
              (fun z => ptr_add elem base
                          (size_mul (to_size_t (Z.of_nat z)) (slice_stride dim_x dim_y)))
              (Z.to_nat dim_z) slices) as (Hl & Hlow & _); [lia |].
  split.
  - subst table. rewrite Hl. exact Hlen.
  - intros z Hzr. subst table. rewrite Hlow by lia.
    rewrite Z2Nat.id by lia. f_equal. apply slice_address.
Qed.

Lemma new_table_length (n : Z) : 0 <= n -> Z.of_nat (length (new_table n)) = n.
Proof. intros Hn. unfold new_table. rewrite length_replicate. lia. Qed.

Lemma fill_slices_layout (kind elem base dim_x dim_y dim_z : Z) (slices : list Z) :
  0 <= dim_z ->
  Z.of_nat (length slices) = dim_z ->
  elem = element_size kind ->
  slice_layout base dim_x dim_y dim_z kind
               (fill_slices elem base (slice_stride dim_x dim_y) dim_z slices).
Proof.
  intros Hz Hlen ->. now apply fill_slices_table.
Qed.

(** Where the backing buffer lies within the address space, the
    address of a slice is the plain sum. *)
Lemma ptr_offset_exact (base dim_x dim_y dim_z elem z : Z) :
  0 <= base -> 0 < dim_x -> 0 < dim_y -> 0 < elem ->
  base + dim_z * dim_x * dim_y * 4 * elem <= 2 ^ 64 ->
  0 <= z < dim_z ->
  ptr_offset base (z * dim_x * dim_y * 4 * elem) = base + z * dim_x * dim_y * 4 * elem.
Proof.
  intros Hb Hx Hy He Hfit Hz. unfold ptr_offset. apply to_size_t_small.
  assert (Hs : 0 < dim_x * dim_y * 4 * elem) by nia.
  replace (z * dim_x * dim_y * 4 * elem) with (z * (dim_x * dim_y * 4 * elem)) by ring.
  replace (dim_z * dim_x * dim_y * 4 * elem)
    with (dim_z * (dim_x * dim_y * 4 * elem)) in Hfit by ring.
  revert Hs Hfit. generalize (dim_x * dim_y * 4 * elem). intros s Hs Hfit. nia.
Qed.

(** C2. For a non-null base pointer, width, height and depth of at
    least 1 and an element kind among U8, F16 and F32 (1, 2 and 4
    bytes), the table built inside compress, the table built inside
    decompress and the table built by image-init each have [depth]
    entries, and entry [z] is the base moved by
    [z * width * height * 4 * elementSize] bytes for every [z] below
    [depth].  Addresses are 64-bit values; where the buffer lies within
    the address space the moved address is the plain sum. *)
Theorem slice_table_layout (kind dim_x dim_y dim_z rgba : Z) :
  rgba <> 0 ->
  1 <= dim_x < 2 ^ 32 -> 1 <= dim_y < 2 ^ 32 -> 1 <= dim_z < 2 ^ 32 ->
  kind = ASTCENC_TYPE_U8 \/ kind = ASTCENC_TYPE_F16 \/ kind = ASTCENC_TYPE_F32 ->
  (exists table,
      compress_transient_image kind dim_x dim_y dim_z rgba
      = Some (mk_image dim_x dim_y dim_z kind (Some table))
      /\ slice_layout rgba dim_x dim_y dim_z kind table)
  /\ (exists table,
         decompress_transient_image kind dim_x dim_y dim_z rgba
         = mk_image dim_x dim_y dim_z kind (Some table)
         /\ slice_layout rgba dim_x dim_y dim_z kind table)
  /\ (forall img,
         image_wf img ->
         exists table,
           astc_native_image_init kind (Some img) dim_x dim_y dim_z rgba
           = (ASTCENC_SUCCESS, Some (mk_image dim_x dim_y dim_z kind (Some table)))
           /\ slice_layout rgba dim_x dim_y dim_z kind table)
  /\ (0 <= rgba ->
      rgba + dim_z * dim_x * dim_y * 4 * element_size kind <= 2 ^ 64 ->
      forall z, 0 <= z < dim_z ->
                ptr_offset rgba (z * dim_x * dim_y * 4 * element_size kind)
                = rgba + z * dim_x * dim_y * 4 * element_size kind).
Proof.
  intros Hbase Hx Hy Hz Hkind.
  assert (Hnew : Z.of_nat (length (new_table dim_z)) = dim_z)
    by (apply new_table_length; lia).
  split; [| split; [| split]].
  - unfold compress_transient_image.
    destruct Hkind as [-> | [-> | ->]]; cbn [Z.eqb Pos.eqb ASTCENC_TYPE_U8 ASTCENC_TYPE_F16 ASTCENC_TYPE_F32];
      eexists; (split; [reflexivity |]);
      apply fill_slices_layout; (lia || reflexivity || assumption).
  - unfold decompress_transient_image.
    destruct Hkind as [-> | [-> | ->]]; cbn [Z.eqb Pos.eqb ASTCENC_TYPE_U8 ASTCENC_TYPE_F16 ASTCENC_TYPE_F32];
      eexists; (split; [reflexivity |]);
      apply fill_slices_layout; (lia || reflexivity || assumption).
  - intros img Hwf.
    assert (Hchecks : (rgba =? 0) || (dim_x =? 0) || (dim_y =? 0) || (dim_z =? 0) = false).
    { destruct (Z.eqb_spec rgba 0); [contradiction |].
      destruct (Z.eqb_spec dim_x 0); [lia |].
      destruct (Z.eqb_spec dim_y 0); [lia |].
      destruct (Z.eqb_spec dim_z 0); [lia | reflexivity]. }
    assert (Hold : Z.of_nat (length (match data img with
                                     | None => new_table dim_z
                                     | Some old =>
                                         if negb (Astcenc.dim_z img =? dim_z)
                                         then new_table dim_z else old
                                     end)) = dim_z).
    { unfold image_wf in Hwf. destruct (data img) as [old |]; [| exact Hnew].
      destruct (Z.eqb_spec (Astcenc.dim_z img) dim_z) as [E | NE]; cbn [negb];
        [congruence | exact Hnew]. }
    unfold astc_native_image_init.
    destruct Hkind as [-> | [-> | ->]]; cbn [Z.eqb Pos.eqb ASTCENC_TYPE_U8 ASTCENC_TYPE_F16 ASTCENC_TYPE_F32];
      unfold astc_native_image_init_u8, astc_native_image_init_f16,
             astc_native_image_init_f32, image_init;
      rewrite Hchecks;
      eexists; (split; [reflexivity |]);
      apply fill_slices_layout; (lia || reflexivity || assumption).
  - intros Hb Hfit z Hzr.
    apply (ptr_offset_exact rgba dim_x dim_y dim_z); try lia.
    unfold element_size. repeat destruct (_ =? _); lia.
Qed.

(** An instance: two 2x2 slices of bytes at address 4096. *)
Lemma slice_table_layout_witness :
  (exists table,
      compress_transient_image 0 2 2 2 4096 = Some (mk_image 2 2 2 0 (Some table))
      /\ slice_layout 4096 2 2 2 0 table)
  /\ (exists table,
         decompress_transient_image 0 2 2 2 4096 = mk_image 2 2 2 0 (Some table)
         /\ slice_layout 4096 2 2 2 0 table)
  /\ (forall img,
         image_wf img ->
         exists table,
           astc_native_image_init 0 (Some img) 2 2 2 4096
           = (ASTCENC_SUCCESS, Some (mk_image 2 2 2 0 (Some table)))
           /\ slice_layout 4096 2 2 2 0 table)
  /\ (0 <= 4096 ->
      4096 + 2 * 2 * 2 * 4 * element_size 0 <= 2 ^ 64 ->
      forall z, 0 <= z < 2 ->
                ptr_offset 4096 (z * 2 * 2 * 4 * element_size 0)
                = 4096 + z * 2 * 2 * 4 * element_size 0).
Proof.
  apply (slice_table_layout 0 2 2 2 4096); [lia | lia | lia | lia |].
  left. reflexivity.
Defined.

End SliceFacts.

(** ** The progress slot *)

Section ProgressFacts.
Import Machine Astcenc Bridge.

Local Abbreviation slot := astc_native_tls_progress_handle.
Local Abbreviation calls := go_progress_calls.

Lemma slot_set (t t' : thread) (handle : Z) (w : world) :
  slot (set_tls_progress_handle t handle w) t'
  = if Nat.eqb t' t then handle else slot w t'.
Proof. reflexivity. Qed.

(** One call, given what its codec run does: every slot is as before,
    and the deliveries are those of the call. *)
Lemma compress_image_ex_with_spec (t : thread) (codec : compress_fn) (args : compress_args) :
  (forall img w,
      let run := codec (ctxp args) img (makeSwizzle (in_swz args))
                       (out_data args) (out_len args) (thread_index args) in
      (forall t', slot (snd (run_codec t run w)) t' = slot w t')
      /\ calls (snd (run_codec t run w))
         = calls w ++ (if slot w t =? 0 then [] else deliveries (slot w t) run)) ->
  forall w,
    (forall t', slot (snd (compress_image_ex_with (run_codec t) codec t args w)) t' = slot w t')
    /\ calls (snd (compress_image_ex_with (run_codec t) codec t args w))
       = calls w ++ call_deliveries deliveries args codec.
Proof.
  intros Hrun w. unfold compress_image_ex_with, call_deliveries.
  destruct (_ || _ || _ || _ || _ || _).
  { cbn [snd]. split; [reflexivity | now rewrite app_nil_r]. }
  destruct (compress_transient_image _ _ _ _ _) as [img |].
  2: { cbn [snd]. split; [reflexivity | now rewrite app_nil_r]. }
  specialize (Hrun img (set_tls_progress_handle t (progress_handle args) w)).
  cbv zeta in Hrun. destruct Hrun as [Hslot Hcalls].
  destruct (run_codec t _ _) as [err w2]. cbn [snd] in *.
  split.
  - intros t'. rewrite slot_set, Hslot, slot_set.
    destruct (Nat.eqb_spec t' t) as [-> | _]; reflexivity.
  - rewrite slot_set, Nat.eqb_refl in Hcalls. exact Hcalls.
Qed.

(** Running the codec, and running the Go side, leave every slot as it
    was; the deliveries are those the design description asks for. *)
Lemma run_codec_go_spec (t : thread) :
  (forall run w,
      (forall t', slot (snd (run_codec t run w)) t' = slot w t')
      /\ calls (snd (run_codec t run w))
         = calls w ++ (if slot w t =? 0 then [] else deliveries (slot w t) run))
  /\ (forall go w,
         (forall t', slot (run_go t go w) t' = slot w t')
         /\ calls (run_go t go w) = calls w ++ go_deliveries go).
Proof.
  apply codec_go_mutind.
  - intros err w. cbn [run_codec snd deliveries].
    split; [reflexivity |]. destruct (_ =? _); now rewrite app_nil_r.
  - intros progress go IHgo rest IHrest w.
    cbn [run_codec deliveries]. unfold progress_callback_with.
    destruct (slot w t =? 0) eqn:Hzero; cbn [negb].
    + destruct (IHrest w) as [Hslot Hcalls]. rewrite Hzero in Hcalls.
      split; assumption.
    + destruct (IHgo (mk_world (slot w) (calls w ++ [(slot w t, progress)])))
        as [Hslot1 Hcalls1].
      cbn [slot calls] in Hslot1, Hcalls1.
      destruct (IHrest (run_go t go (mk_world (slot w)
                                              (calls w ++ [(slot w t, progress)]))))
        as [Hslot2 Hcalls2].
      split.
      * intros t'. now rewrite Hslot2, Hslot1.
      * rewrite Hcalls2, Hslot1, Hzero, Hcalls1.
        rewrite <- !app_assoc. reflexivity.
  - intros w. cbn [run_go go_deliveries]. split; [reflexivity | now rewrite app_nil_r].
  - intros args codec IHcodec rest IHrest w. cbn [run_go go_deliveries].
    destruct (compress_image_ex_with_spec t codec args) with (w := w) as [Hslot1 Hcalls1].
    { intros img w'. apply IHcodec. }
    destruct (compress_image_ex_with (run_codec t) codec t args w) as [err w1].
    cbn [snd] in *.
    destruct (IHrest w1) as [Hslot2 Hcalls2].
    split.
    + intros t'. now rewrite Hslot2, Hslot1.
    + rewrite Hcalls2, Hcalls1. now rewrite app_assoc.
Qed.

(** The error code of a call is the one its codec run returns. *)
Lemma run_codec_returned (t : thread) (run : codec_run) (w : world) :
  fst (run_codec t run w) = returned run.
Proof.
  revert w. induction run as [err | progress go rest IH]; intros w;
    cbn [run_codec returned fst]; auto.
Qed.

Lemma deliveries_flat (handle : Z) (run : codec_run) :
  flat run -> deliveries handle run = map (fun progress => (handle, progress)) (own_events run).
Proof.
  induction run as [err | progress go rest IH];
    cbn [flat deliveries own_events map]; auto.
  intros [-> Hflat]. cbn [go_deliveries app]. f_equal. now apply IH.
Qed.

Lemma accepted_checks (args : compress_args) :
  accepted args ->
  (ctxp args =? 0) || (rgba args =? 0) || (out_data args =? 0)
  || (arg_dim_x args =? 0) || (arg_dim_y args =? 0) || (arg_dim_z args =? 0) = false
  /\ exists img,
      compress_transient_image (arg_data_type args) (arg_dim_x args) (arg_dim_y args)
                               (arg_dim_z args) (rgba args) = Some img.
Proof.
  intros (H1 & H2 & H3 & H4 & H5 & H6 & Hkind). split.
  - repeat match goal with
           | H : ?x <> 0 |- _ => apply Z.eqb_neq in H; rewrite H; clear H
           end.
    reflexivity.
  - unfold compress_transient_image.
    destruct Hkind as [-> | [-> | ->]]; eexists; reflexivity.
Qed.

(** C3, as amended.  For every non-zero progress handle registered by
    an accepted compress call on a thread, each progress event the
    call's codec raises through the trampoline on that thread delivers
    that handle, unchanged, to the sink exactly once; the calls the
    sink itself makes meanwhile deliver in between under their own
    handles. *)
Theorem progress_delivery (codec : compress_fn) (t : thread)
        (args : compress_args) (w : world) :
  accepted args ->
  progress_handle args <> 0 ->
  delivers_handle codec t args w.
Proof.
  intros Hacc Hhandle.
  destruct (accepted_checks args Hacc) as [Hchecks [img Himg]].
  exists img. split; [exact Himg |]. cbv zeta.
  unfold astc_native_compress_image_ex, compress_image_ex_with.
  rewrite Hchecks, Himg.
  set (run := codec (ctxp args) img (makeSwizzle (in_swz args))
                    (out_data args) (out_len args) (thread_index args)).
  set (w1 := set_tls_progress_handle t (progress_handle args) w).
  destruct (proj1 (run_codec_go_spec t) run w1) as [_ Hcalls].
  pose proof (run_codec_returned t run w1) as Hret.
  destruct (run_codec t run w1) as [err w2]. cbn [fst snd] in *.
  assert (Hslot : astc_native_tls_progress_handle w1 t = progress_handle args).
  { unfold w1. rewrite slot_set. now rewrite Nat.eqb_refl. }
  rewrite Hslot in Hcalls.
  apply Z.eqb_neq in Hhandle. rewrite Hhandle in Hcalls.
  split; [exact Hret | split; [exact Hcalls |]].
  intros Hflat. etransitivity; [exact Hcalls |]. f_equal. now apply deliveries_flat.
Qed.

(** An instance: handle 7, two progress events. *)
Lemma progress_delivery_witness :
  delivers_handle
    (fun _ _ _ _ _ _ => Progress 10 GoReturn (Progress 20 GoReturn (Return ASTCENC_SUCCESS)))
    0%nat (mk_compress_args 1 0 1 1 1 4096 None 8192 16 0 7) initial_world.
Proof.
  apply progress_delivery.
  - unfold accepted. cbn. repeat split; try lia. left. reflexivity.
  - cbn. lia.
Defined.

(** C3 as stated fails for the handle 0: the trampoline takes 0 for
    "no handle" and the event reaches no sink. *)
Lemma zero_handle_not_delivered :
  let codec : compress_fn :=
    fun _ _ _ _ _ _ => Progress 10 GoReturn (Return ASTCENC_SUCCESS) in
  let args := mk_compress_args 1 0 1 1 1 4096 None 8192 16 0 0 in
  accepted args
  /\ go_progress_calls (snd (astc_native_compress_image_ex codec 0%nat args initial_world))
     = []
  /\ ~ (forall codec t args w, accepted args -> delivers_handle codec t args w).
Proof.
  intros codec args.
  assert (Hacc : accepted args).
  { unfold accepted, args. cbn. repeat split; try lia. left. reflexivity. }
  split; [exact Hacc | split; [reflexivity |]].
  intros H. destruct (H codec 0%nat args initial_world Hacc) as (img & _ & _ & Hcalls & _).
  discriminate Hcalls.
Qed.

(** C4. After a compress call returns, every thread's slot holds what
    it held before the call, whatever the arguments, whatever the codec
    did and returned, and whatever calls the sink made meanwhile; the
    same holds after each single progress event, so that after a nested
    call that registered B the slot again holds the A of the outer
    call. *)
Theorem progress_slot_restored (codec : compress_fn) (t : thread)
        (args : compress_args) (w : world) :
  (forall t',
      astc_native_tls_progress_handle
        (snd (astc_native_compress_image_ex codec t args w)) t'
      = astc_native_tls_progress_handle w t')
  /\ (forall go progress t',
         astc_native_tls_progress_handle
           (astc_native_progress_callback go t progress w) t'
         = astc_native_tls_progress_handle w t')
  /\ (forall go t',
         astc_native_tls_progress_handle
           (run_go t (GoCompress args codec go) w) t'
         = astc_native_tls_progress_handle w t').
Proof.
  destruct (run_codec_go_spec t) as [Hrun Hgo].
  split; [| split].
  - unfold astc_native_compress_image_ex.
    apply compress_image_ex_with_spec. intros img w'. apply Hrun.
  - intros go progress t'. unfold astc_native_progress_callback, progress_callback_with.
    destruct (negb _); [| reflexivity].
    now rewrite (proj1 (Hgo go _)).
  - intros go t'. apply Hgo.
Qed.

(** The nested scenario, run: an outer call registers 7; during its
    first event the sink makes an inner call that registers 9 and
    raises one event; the outer call's second event delivers 7 again,
    and the slot ends at its initial 0. *)
Example nested_registration :
  let inner : compress_fn :=
    fun _ _ _ _ _ _ => Progress 20 GoReturn (Return ASTCENC_ERR_BAD_CONTEXT) in
  let outer : compress_fn :=
    fun _ _ _ _ _ _ =>
      Progress 10 (GoCompress (mk_compress_args 1 0 1 1 1 4096 None 8192 16 0 9)
                              inner GoReturn)
               (Progress 30 GoReturn (Return ASTCENC_SUCCESS)) in
  let result :=
    astc_native_compress_image_ex outer 0%nat
      (mk_compress_args 1 0 1 1 1 4096 None 8192 16 0 7) initial_world in
  fst result = ASTCENC_SUCCESS
  /\ go_progress_calls (snd result) = [(7, 10); (9, 20); (7, 30)]
  /\ astc_native_tls_progress_handle (snd result) 0%nat = 0.
Proof. repeat split. Qed.

End ProgressFacts.

(** ** The decompression size guard *)

Section DecompressFacts.
Import Machine Astcenc Bridge.

Lemma decompress_need_exact (out_type dim_x dim_y dim_z : Z) :
  0 <= dim_x < 2 ^ 32 -> 0 <= dim_y < 2 ^ 32 -> 0 <= dim_z < 2 ^ 32 ->
  out_type = ASTCENC_TYPE_U8 \/ out_type = ASTCENC_TYPE_F16 \/ out_type = ASTCENC_TYPE_F32 ->
  dim_x * dim_y * dim_z * 4 * element_size out_type < 2 ^ 64 ->
  decompress_need out_type dim_x dim_y dim_z
  = Some (dim_x * dim_y * dim_z * 4 * element_size out_type).
Proof.
  intros Hx Hy Hz Hkind Hfit. unfold decompress_need, size_mul.
  rewrite (to_size_t_small dim_x), (to_size_t_small dim_y), (to_size_t_small dim_z) by lia.
  assert (Hxy : 0 <= dim_x * dim_y) by nia.
  assert (Hxyz : 0 <= dim_x * dim_y * dim_z) by nia.
  assert (Hes : 1 <= element_size out_type <= 4)
    by (unfold element_size; repeat destruct (_ =? _); lia).
  assert (H4 : dim_x * dim_y * dim_z * 4 < 2 ^ 64) by nia.
  assert (H3 : dim_x * dim_y * dim_z < 2 ^ 64) by lia.
  assert (H2 : dim_x * dim_y < 2 ^ 64) by nia.
  rewrite (to_size_t_small (dim_x * dim_y)) by lia.
  rewrite (to_size_t_small (dim_x * dim_y * dim_z)) by lia.
  rewrite (to_size_t_small (dim_x * dim_y * dim_z * 4)) by lia.
  destruct Hkind as [-> | [-> | ->]];
    cbn [Z.eqb Pos.eqb ASTCENC_TYPE_U8 ASTCENC_TYPE_F16 ASTCENC_TYPE_F32 element_size] in *;
    f_equal; try (rewrite to_size_t_small by lia); lia.
Qed.

(** Where the output size is below 2^64 the guard works: too short a
    buffer is refused with [ASTCENC_ERR_OUT_OF_MEM] before the codec
    runs and memory is as before; otherwise the codec's result is the
    result. *)
Lemma decompress_guard_in_range (codec : decompress_fn)
      (ctxp data data_len out_type dim_x dim_y dim_z out_rgba out_len : Z)
      (in_swz : option astc_native_swizzle) (thread_index : Z) (m : memory) :
  ctxp <> 0 -> data <> 0 -> out_rgba <> 0 ->
  1 <= dim_x < 2 ^ 32 -> 1 <= dim_y < 2 ^ 32 -> 1 <= dim_z < 2 ^ 32 ->
  out_type = ASTCENC_TYPE_U8 \/ out_type = ASTCENC_TYPE_F16 \/ out_type = ASTCENC_TYPE_F32 ->
  dim_x * dim_y * dim_z * 4 * element_size out_type < 2 ^ 64 ->
  (out_len < dim_x * dim_y * dim_z * 4 * element_size out_type ->
   astc_native_decompress_image_ex codec ctxp data data_len out_type dim_x dim_y dim_z
                                   out_rgba out_len in_swz thread_index m
   = (ASTCENC_ERR_OUT_OF_MEM, m))
  /\ (dim_x * dim_y * dim_z * 4 * element_size out_type <= out_len ->
      astc_native_decompress_image_ex codec ctxp data data_len out_type dim_x dim_y dim_z
                                      out_rgba out_len in_swz thread_index m
      = codec ctxp data data_len
              (decompress_transient_image out_type dim_x dim_y dim_z out_rgba)
              (makeSwizzle in_swz) thread_index m).
Proof.
  intros Hc Hd Ho Hx Hy Hz Hkind Hfit.
  unfold astc_native_decompress_image_ex.
  assert (Hchecks : (ctxp =? 0) || (data =? 0) || (out_rgba =? 0)
                    || (dim_x =? 0) || (dim_y =? 0) || (dim_z =? 0) = false).
  { repeat match goal with
           | |- context [?x =? 0] => destruct (Z.eqb_spec x 0); [lia |]
           end.
    reflexivity. }
  rewrite Hchecks, decompress_need_exact by (assumption || lia).
  split; intros Hlen.
  - destruct (Z.ltb_spec out_len (dim_x * dim_y * dim_z * 4 * element_size out_type));
      [reflexivity | lia].
  - destruct (Z.ltb_spec out_len (dim_x * dim_y * dim_z * 4 * element_size out_type));
      [lia | reflexivity].
Qed.

(** C6 at its failing input.  For a 2^31 x 2^31 x 1 image of bytes the
    output size is 2^64, which the [size_t] products reduce to 0: a
    buffer declared 0 bytes long passes the guard and the codec is
    called on it, in the general entry point and in the RGBA8 one. *)
Theorem decompress_guard_wraps (codec : decompress_fn) (m : memory) :
  0 < 2 ^ 31 * 2 ^ 31 * 1 * 4 * element_size ASTCENC_TYPE_U8
  /\ decompress_need ASTCENC_TYPE_U8 (2 ^ 31) (2 ^ 31) 1 = Some 0
  /\ astc_native_decompress_image_ex codec 1 4096 16 ASTCENC_TYPE_U8 (2 ^ 31) (2 ^ 31) 1
                                     8192 0 None 0 m
     = codec 1 4096 16
             (mk_image (2 ^ 31) (2 ^ 31) 1 ASTCENC_TYPE_U8 (Some [8192]))
             (mk_swizzle ASTCENC_SWZ_R ASTCENC_SWZ_G ASTCENC_SWZ_B ASTCENC_SWZ_A) 0 m
  /\ astc_native_decompress_image_rgba8 codec 1 4096 16 (2 ^ 31) (2 ^ 31) 1 8192 0 0 m
     = codec 1 4096 16
             (mk_image (2 ^ 31) (2 ^ 31) 1 ASTCENC_TYPE_U8 (Some [8192]))
             (mk_swizzle ASTCENC_SWZ_R ASTCENC_SWZ_G ASTCENC_SWZ_B ASTCENC_SWZ_A) 0 m.
Proof.
  split; [reflexivity | split; [reflexivity | split; reflexivity]].
Qed.

End DecompressFacts.

(** ** Block information *)

Section BlockInfoFacts.
Import Machine Astcenc Bridge.

(** C10. When the codec's decode of the block returns an error, the
    extractor returns that error and the caller's record is field for
    field what it was. *)
Theorem block_info_untouched_on_error
        (astcenc_get_block_info : Z -> list Z -> astcenc_error * astcenc_block_info)
        (ctxp : Z) (data : list Z) (out : astc_native_block_info) :
  ctxp <> 0 ->
  fst (astcenc_get_block_info ctxp data) <> ASTCENC_SUCCESS ->
  astc_native_get_block_info astcenc_get_block_info ctxp (Some data) (Some out)
  = (fst (astcenc_get_block_info ctxp data), Some out).
Proof.
  intros Hctx Herr. unfold astc_native_get_block_info.
  apply Z.eqb_neq in Hctx. rewrite Hctx.
  destruct (astcenc_get_block_info ctxp data) as [err info]. cbn [fst] in *.
  destruct err; cbn [is_error]; try reflexivity. contradiction.
Qed.

(** An instance: the codec reports a bad context and the caller's
    record, all ones, stays all ones. *)
Lemma block_info_untouched_on_error_witness :
  let info := mk_block_info 0 4 4 1 16 false false false false 1 0 0 [] 0 0 0 0 0 [] [] [] [] in
  let out := mk_native_block_info 1 1 1 1 1 1 1 1 1 1 1 1 [1] 1 1 1 1 1 [1] [1] [1] [1] in
  astc_native_get_block_info (fun _ _ => (ASTCENC_ERR_BAD_CONTEXT, info)) 1
                             (Some (repeat 0 16)) (Some out)
  = (ASTCENC_ERR_BAD_CONTEXT, Some out).
Proof.
  intros info out.
  apply (block_info_untouched_on_error
           (fun _ _ => (ASTCENC_ERR_BAD_CONTEXT, info)) 1 (repeat 0 16) out).
  - lia.
  - cbn. discriminate.
Defined.

End BlockInfoFacts.

(** * Further properties *)

(** ** Command-line flags *)

Section FlagFacts.
Import Harness.

Lemma get_flag_value_from_sound (args : list string) (key : string) (fuel i : nat) (v : string) :
  get_flag_value_from args key i fuel = Some v ->
  exists j, (i <= j)%nat /\ (j + 1 < length args)%nat
            /\ nth j args EmptyString = key /\ nth (j + 1) args EmptyString = v
            /\ forall k, (i <= k < j)%nat -> nth k args EmptyString <> key.
Proof.
  revert i. induction fuel as [| fuel IH]; intros i; cbn [get_flag_value_from];
    [discriminate |].
  destruct (Nat.ltb_spec (i + 1) (length args)) as [Hlt | _]; [| discriminate].
  destruct (String.eqb_spec (nth i args EmptyString) key) as [Heq | Hne].
  - intros [= <-]. exists i. repeat split; try lia; try assumption.
  - intros H. destruct (IH _ H) as (j & Hij & Hj & Hkey & Hv & Hfirst).
    exists j. repeat split; try lia; try assumption.
    intros k Hk. destruct (Nat.eq_dec k i) as [-> | Hki]; [assumption |].
    apply Hfirst. lia.
Qed.

Lemma get_flag_value_from_complete (args : list string) (key : string) (fuel i j : nat) :
  (i <= j)%nat -> (j + 1 < length args)%nat -> (j - i < fuel)%nat ->
  nth j args EmptyString = key ->
  (forall k, (i <= k < j)%nat -> nth k args EmptyString <> key) ->
  get_flag_value_from args key i fuel = Some (nth (j + 1) args EmptyString).
Proof.
  revert i. induction fuel as [| fuel IH]; intros i Hij Hj Hfuel Hkey Hfirst; [lia |].
  cbn [get_flag_value_from].
  destruct (Nat.ltb_spec (i + 1) (length args)) as [_ | Hge]; [| lia].
  destruct (String.eqb_spec (nth i args EmptyString) key) as [Heq | Hne].
  - destruct (Nat.eq_dec i j) as [-> | Hne]; [reflexivity |].
    exfalso. apply (Hfirst i); [lia | exact Heq].
  - destruct (Nat.eq_dec i j) as [-> | Hne']; [contradiction |].
    apply IH; try lia; try assumption.
    intros k Hk. apply Hfirst. lia.
Qed.

(** X1. A flag has a value exactly when the key occurs at a position
    that is not the last; the value is the argument after the first
    such position. *)
Theorem get_flag_value_first (args : list string) (key v : string) :
  get_flag_value args key = Some v
  <-> exists j, (j + 1 < length args)%nat
                /\ nth j args EmptyString = key /\ nth (j + 1) args EmptyString = v
                /\ forall k, (k < j)%nat -> nth k args EmptyString <> key.
Proof.
  unfold get_flag_value. split.
  - intros H. destruct (get_flag_value_from_sound _ _ _ _ _ H)
      as (j & _ & Hj & Hkey & Hv & Hfirst).
    exists j. repeat split; try assumption. intros k Hk. apply Hfirst. lia.
  - intros (j & Hj & Hkey & Hv & Hfirst). subst v.
    apply get_flag_value_from_complete; try lia; try assumption.
    intros k Hk. apply Hfirst. lia.
Qed.

Lemma get_flag_value_none (args : list string) (key : string) :
  (forall j, (j + 1 < length args)%nat -> nth j args EmptyString <> key) ->
  get_flag_value args key = None.
Proof.
  intros Hno. destruct (get_flag_value args key) as [v |] eqn:E; [| reflexivity].
  unfold get_flag_value in E.
  destruct (get_flag_value_from_sound _ _ _ _ _ E) as (j & _ & Hj & Hkey & _).
  exfalso. exact (Hno j Hj Hkey).
Qed.

(** X2. A key given as the very last argument, and nowhere before, is
    present for [has_flag] but has no value: [get_flag_string] gives
    the default. *)
Theorem flag_in_last_position (args : list string) (key def : string) :
  ~ In key args ->
  has_flag (args ++ [key]) key = true
  /\ get_flag_value (args ++ [key]) key = None
  /\ get_flag_string (args ++ [key]) key def = def.
Proof.
  intros Hnot.
  assert (Hnone : get_flag_value (args ++ [key]) key = None).
  { apply get_flag_value_none. intros j Hj Hkey.
    rewrite length_app in Hj. cbn [length] in Hj.
    rewrite app_nth1 in Hkey by lia.
    apply Hnot. rewrite <- Hkey. apply nth_In. lia. }
  split; [| split].
  - unfold has_flag. rewrite existsb_app. cbn [existsb].
    rewrite String.eqb_refl. now rewrite !orb_true_r.
  - exact Hnone.
  - unfold get_flag_string. now rewrite Hnone.
Qed.

(** An instance: ["-iters"] closing the command line. *)
Lemma flag_in_last_position_witness :
  has_flag (["-w"%string; "8"%string] ++ ["-iters"%string]) "-iters" = true
  /\ get_flag_value (["-w"%string; "8"%string] ++ ["-iters"%string]) "-iters" = None
  /\ get_flag_string (["-w"%string; "8"%string] ++ ["-iters"%string]) "-iters" "20"
     = "20"%string.
Proof.
  apply (flag_in_last_position ["-w"%string; "8"%string] "-iters" "20").
  cbn. intros [H | [H | []]]; discriminate H.
Defined.

End FlagFacts.

(** ** The checksum *)

Section ChecksumFacts.
Import Harness.

Lemma fnv1a64_nonzero_seed (seed : Z) (data : list Z) :
  seed <> 0 ->
  fnv1a64 seed data
  = fold_left (fun h byte => to_uint64 (to_uint64 (Z.lxor h byte) * prime64)) data seed.
Proof.
  intros Hs. unfold fnv1a64. apply Z.eqb_neq in Hs. now rewrite Hs.
Qed.

Lemma fnv1a64_app_nonzero (seed : Z) (first second : list Z) :
  fnv1a64 seed first <> 0 ->
  fnv1a64 (fnv1a64 seed first) second = fnv1a64 seed (first ++ second).
Proof.
  intros NE. rewrite fnv1a64_nonzero_seed by exact NE.
  unfold fnv1a64 at 2. rewrite fold_left_app. reflexivity.
Qed.

(** X3. Hashing in two steps, with the hash of the first part as the
    seed of the second, is hashing the concatenation, unless the hash
    of the first part is 0: then the second step starts over from the
    offset basis, as for a seed of 0. *)
Theorem fnv1a64_chain (seed : Z) (first second : list Z) :
  fnv1a64 (fnv1a64 seed first) second
  = if fnv1a64 seed first =? 0 then fnv1a64 offset64 second
    else fnv1a64 seed (first ++ second).
Proof.
  destruct (Z.eqb_spec (fnv1a64 seed first) 0) as [E | NE].
  - rewrite E. reflexivity.
  - now apply fnv1a64_app_nonzero.
Qed.

Lemma checksum_of_concat_or_nil (outputs : list (list Z)) :
  (forall k, (0 < k < length outputs)%nat -> checksum_of (firstn k outputs) <> 0) ->
  checksum_of outputs = fnv1a64 0 (concat outputs) \/ outputs = [].
Proof.
  induction outputs as [| out prev IH] using rev_ind; intros Hnz; [now right |].
  left. unfold checksum_of. rewrite fold_left_app. cbn [fold_left].
  fold (checksum_of prev).
  rewrite concat_app. cbn [concat]. rewrite app_nil_r.
  assert (Hprefix : forall k, (k <= length prev)%nat ->
                              firstn k (prev ++ [out]) = firstn k prev).
  { intros k Hk. rewrite firstn_app.
    replace (k - length prev)%nat with 0%nat by lia.
    cbn [firstn]. apply app_nil_r. }
  destruct IH as [IH | ->].
  - intros k Hk. rewrite <- Hprefix by lia. apply Hnz.
    rewrite length_app. cbn [length]. lia.
  - assert (Hlen : (0 < length prev)%nat).
    { destruct prev; [| cbn [length]; lia].
      (* the empty prefix has checksum 0, its hash is the offset basis *)
      discriminate IH. }
    assert (Hprev : checksum_of prev <> 0).
    { specialize (Hnz (length prev)).
      rewrite Hprefix, firstn_all in Hnz by lia. apply Hnz.
      rewrite length_app. cbn [length]. lia. }
    rewrite IH in Hprev |- *. now apply fnv1a64_app_nonzero.
  - reflexivity.
Qed.

(** X4. The checksum accumulated over the outputs of one or more
    iterations is the hash of all the output bytes in sequence, as long
    as no intermediate checksum is 0. *)
Theorem checksum_of_concat (outputs : list (list Z)) :
  outputs <> [] ->
  (forall k, (0 < k < length outputs)%nat -> checksum_of (firstn k outputs) <> 0) ->
  checksum_of outputs = fnv1a64 0 (concat outputs).
Proof.
  intros Hne Hnz. destruct (checksum_of_concat_or_nil outputs Hnz) as [H | H];
    [exact H | contradiction].
Qed.

(** An instance: two iterations, of two bytes and of one byte. *)
Lemma checksum_of_concat_witness :
  checksum_of [[1; 2]; [3]] = fnv1a64 0 (concat [[1; 2]; [3]]).
Proof.
  apply checksum_of_concat; [discriminate |].
  intros k Hk. cbn [length] in Hk.
  assert (k = 1%nat) as -> by lia.
  vm_compute. discriminate.
Defined.

End ChecksumFacts.

(** ** Hexadecimal output *)

Section HexFacts.
Import Machine Harness.

Lemma hex_digit_nth (k : Z) :
  0 <= k < 16 -> hex_digit (nth (Z.to_nat k) hexd "000"%char) = k.
Proof.
  intros Hk. rewrite <- (Z2Nat.id k) at 2 by lia.
  assert (Hn : (Z.to_nat k < 16)%nat) by lia.
  revert Hn. generalize (Z.to_nat k). intros n Hn.
  do 16 (destruct n as [| n]; [reflexivity |]). lia.
Qed.

Lemma nibble_hi (v k : Z) :
  0 <= k -> Z.shiftr (to_uint8 (Z.shiftr v k)) 4 = (v / 2 ^ (k + 4)) mod 16.
Proof.
  intros Hk. rewrite to_uint8_mod, !Z.shiftr_div_pow2 by lia.
  rewrite Z.pow_add_r by lia. rewrite <- Z.div_div by lia.
  generalize (v / 2 ^ k). intros x. change (2 ^ 4) with 16.
  Z.div_mod_to_equations. lia.
Qed.

Lemma nibble_lo (v k : Z) :
  0 <= k -> Z.land (to_uint8 (Z.shiftr v k)) 0xF = (v / 2 ^ k) mod 16.
Proof.
  intros Hk. rewrite to_uint8_mod, Z.shiftr_div_pow2 by lia.
  change 0xF with (Z.ones 4). rewrite Z.land_ones by lia.
  generalize (v / 2 ^ k). intros x. change (2 ^ 4) with 16.
  Z.div_mod_to_equations. lia.
Qed.

Lemma horner_step (v k : Z) :
  0 <= k -> (v / 2 ^ (k + 4)) * 16 + (v / 2 ^ k) mod 16 = v / 2 ^ k.
Proof.
  intros Hk. rewrite Z.pow_add_r by lia. rewrite <- Z.div_div by lia.
  generalize (v / 2 ^ k). intros x. change (2 ^ 4) with 16.
  Z.div_mod_to_equations. lia.
Qed.

(** The sixteen characters, by nibble. *)
Lemma hex_u64_nibbles (v : Z) :
  hex_u64 v
  = map (fun k => nth (Z.to_nat ((v / 2 ^ k) mod 16)) hexd "000"%char)
        [60; 56; 52; 48; 44; 40; 36; 32; 28; 24; 20; 16; 12; 8; 4; 0].
Proof.
  unfold hex_u64. cbn [seq fold_left repeat Nat.mul Nat.add list_insert insert map].
  change (56 - Z.of_nat 0 * 8) with 56. change (56 - Z.of_nat 1 * 8) with 48.
  change (56 - Z.of_nat 2 * 8) with 40. change (56 - Z.of_nat 3 * 8) with 32.
  change (56 - Z.of_nat 4 * 8) with 24. change (56 - Z.of_nat 5 * 8) with 16.
  change (56 - Z.of_nat 6 * 8) with 8. change (56 - Z.of_nat 7 * 8) with 0.
  rewrite !nibble_hi, !nibble_lo by lia. reflexivity.
Qed.

(** X5. For every 64-bit value the hexadecimal text has sixteen
    characters, all of them among [0-9a-f], and reads back as the
    value. *)
Theorem hex_u64_roundtrip (v : Z) :
  0 <= v < 2 ^ 64 ->
  length (hex_u64 v) = 16%nat
  /\ Forall (fun c => In c hexd) (hex_u64 v)
  /\ hex_value (hex_u64 v) = v.
Proof.
  intros Hv. rewrite hex_u64_nibbles. split; [reflexivity | split].
  - apply List.Forall_forall. intros c Hc. apply in_map_iff in Hc.
    destruct Hc as (k & <- & _). apply nth_In.
    pose proof (Z.mod_pos_bound (v / 2 ^ k) 16). change (length hexd) with 16%nat. lia.
  - unfold hex_value. cbn [map fold_left].
    rewrite !hex_digit_nth by (apply Z.mod_pos_bound; lia).
    assert (H60 : 0 * 16 + (v / 2 ^ 60) mod 16 = v / 2 ^ (56 + 4)).
    { rewrite Z.mod_small; [reflexivity |]. split; [apply Z.div_pos; lia |].
      apply Z.div_lt_upper_bound; lia. }
    rewrite H60. rewrite (horner_step v 56) by lia.
    change (v / 2 ^ 52) with (v / 2 ^ (48 + 4)).
    change (v / 2 ^ 56) with (v / 2 ^ (48 + 4 + 4)).
    rewrite (horner_step v (48 + 4)), (horner_step v 48) by lia.
    change (v / 2 ^ 44) with (v / 2 ^ (40 + 4)).
    change (v / 2 ^ 48) with (v / 2 ^ (40 + 4 + 4)).
    rewrite (horner_step v (40 + 4)), (horner_step v 40) by lia.
    change (v / 2 ^ 36) with (v / 2 ^ (32 + 4)).
    change (v / 2 ^ 40) with (v / 2 ^ (32 + 4 + 4)).
    rewrite (horner_step v (32 + 4)), (horner_step v 32) by lia.
    change (v / 2 ^ 28) with (v / 2 ^ (24 + 4)).
    change (v / 2 ^ 32) with (v / 2 ^ (24 + 4 + 4)).
    rewrite (horner_step v (24 + 4)), (horner_step v 24) by lia.
    change (v / 2 ^ 20) with (v / 2 ^ (16 + 4)).
    change (v / 2 ^ 24) with (v / 2 ^ (16 + 4 + 4)).
    rewrite (horner_step v (16 + 4)), (horner_step v 16) by lia.
    change (v / 2 ^ 12) with (v / 2 ^ (8 + 4)).
    change (v / 2 ^ 16) with (v / 2 ^ (8 + 4 + 4)).
    rewrite (horner_step v (8 + 4)), (horner_step v 8) by lia.
    change (v / 2 ^ 4) with (v / 2 ^ (0 + 4)).
    change (v / 2 ^ 8) with (v / 2 ^ (0 + 4 + 4)).
    rewrite (horner_step v (0 + 4)), (horner_step v 0) by lia.
    change (2 ^ 0) with 1. apply Z.div_1_r.
Qed.

(** An instance: the offset basis of the checksum. *)
Lemma hex_u64_roundtrip_witness :
  length (hex_u64 offset64) = 16%nat
  /\ Forall (fun c => In c hexd) (hex_u64 offset64)
  /\ hex_value (hex_u64 offset64) = offset64.
Proof.
  apply hex_u64_roundtrip. unfold offset64. lia.
Defined.

End HexFacts.

(** ** Writing and reading a container file *)

Section FileFacts.
Import Machine Container Harness.

Lemma u24_split_mod (v : Z) :
  v mod 256 + 256 * ((v / 256) mod 256) + 65536 * ((v / 65536) mod 256) = v mod 2 ^ 24.
Proof. Z.div_mod_to_equations. lia. Qed.



Lemma size_mul_range (a b : Z) : 0 <= size_mul a b < 2 ^ 64.
Proof. unfold size_mul. apply to_size_t_range. Qed.

Lemma decode_main_blocks_long (file : list Z) (bx by_ bz w h d : Z) :
  need (total_blocks bx by_ bz w h d) <= Z.of_nat (length file) ->
  decode_main_blocks file (mk_header bx by_ bz w h d)
  = Returned (mk_file (mk_header bx by_ bz w h d)
                      (total_blocks bx by_ bz w h d)
                      (encode_main_out_len bx by_ bz w h d)).
Proof.
  intros Hlen. unfold decode_main_blocks, encode_main_out_len.
  cbn [hdr_bx hdr_by hdr_bz hdr_sx hdr_sy hdr_sz].
  destruct (Z.ltb_spec (Z.of_nat (length file)) (need (total_blocks bx by_ bz w h d)));
    [lia | reflexivity].
Qed.

(** X7. A file the encoder framed, with as many block bytes as the
    encoder allots, is accepted by the decoder's container reader,
    which finds the six header values, the encoder's block count and
    the encoder's block length, for block dimensions in 1..255 and
    image dimensions in 1..2^24-1. *)
Theorem encode_then_decode (bx by_ bz w h d : Z) (out : list Z) :
  1 <= bx <= 255 -> 1 <= by_ <= 255 -> 1 <= bz <= 255 ->
  1 <= w <= 2 ^ 24 - 1 -> 1 <= h <= 2 ^ 24 - 1 -> 1 <= d <= 2 ^ 24 - 1 ->
  Z.of_nat (length out) = encode_main_out_len bx by_ bz w h d ->
  bind_outcome (encode_main_file bx by_ bz w h d out) decode_main_container
  = Returned (mk_file (mk_header bx by_ bz w h d)
                      (total_blocks bx by_ bz w h d)
                      (encode_main_out_len bx by_ bz w h d)).
Proof.
  intros Hbx Hby Hbz Hw Hh Hd Hlen.
  rewrite encode_main_file_bytes by lia. cbn [bind_outcome].
  unfold decode_main_container.
  rewrite decode_main_header_bytes by assumption. cbn [bind_outcome].
  apply decode_main_blocks_long.
  rewrite length_app, Nat2Z.inj_add, Hlen.
  change (Z.of_nat (length (header_bytes bx by_ bz w h d))) with 16.
  unfold encode_main_out_len, need.
  pose proof (size_mul_range (total_blocks bx by_ bz w h d) 16) as Hrange.
  revert Hrange. generalize (size_mul (total_blocks bx by_ bz w h d) 16). intros len Hrange.
  unfold size_add, to_size_t. apply Z.mod_le; lia.
Qed.

(** An instance: 4x4x1 blocks, a 12x8x1 image, 96 bytes of blocks. *)
Lemma encode_then_decode_witness :
  bind_outcome (encode_main_file 4 4 1 12 8 1 (repeat 0 96)) decode_main_container
  = Returned (mk_file (mk_header 4 4 1 12 8 1) (total_blocks 4 4 1 12 8 1)
                      (encode_main_out_len 4 4 1 12 8 1)).
Proof.
  apply encode_then_decode; try lia. reflexivity.
Defined.

Lemma decode_main_header_magic (file : list Z) (hd : astc_header) :
  decode_main_header file = Returned hd ->
  (16 <= length file)%nat /\ firstn 4 file = [0x13; 0xAB; 0xA1; 0x5C].
Proof.
  unfold decode_main_header.
  destruct (Z.ltb_spec (Z.of_nat (length file)) 16) as [| Hlen]; [discriminate |].
  destruct (_ || _ || _ || _) eqn:Hm; [discriminate |]. intros _.
  split; [lia |].
  repeat (apply orb_false_elim in Hm; destruct Hm as [Hm ?]).
  repeat match goal with
         | H : negb (_ =? _) = false |- _ =>
             apply negb_false_iff, Z.eqb_eq in H
         end.
  unfold byte_at in *.
  do 4 (destruct file as [| ? file]; [cbn [length] in Hlen; lia |]).
  cbn [Nat.add nth] in *. subst. reflexivity.
Qed.

(** X8. Whatever the container reader accepts starts with the magic,
    holds block dimensions in 1..255 and image dimensions in
    1..2^24-1, and is reported with the block count reduced modulo
    2^64; where the file size [16 + blockCount * 16] is below 2^64 the
    block data the reader hands on lies within the file. *)
Theorem decode_main_container_sound (file : list Z) (f : astc_file) :
  is_bytes file ->
  decode_main_container file = Returned f ->
  let hd := file_header f in
  let count := blockCount (hdr_bx hd) (hdr_by hd) (hdr_bz hd)
                          (hdr_sx hd) (hdr_sy hd) (hdr_sz hd) in
  firstn 4 file = [0x13; 0xAB; 0xA1; 0x5C]
  /\ 1 <= hdr_bx hd <= 255 /\ 1 <= hdr_by hd <= 255 /\ 1 <= hdr_bz hd <= 255
  /\ 1 <= hdr_sx hd <= 2 ^ 24 - 1 /\ 1 <= hdr_sy hd <= 2 ^ 24 - 1
  /\ 1 <= hdr_sz hd <= 2 ^ 24 - 1
  /\ file_total_blocks f = count mod 2 ^ 64
  /\ (16 + count * 16 < 2 ^ 64 ->
      file_total_blocks f = count
      /\ file_blocks_len f = count * 16
      /\ 16 + file_blocks_len f <= Z.of_nat (length file)).
Proof.
  intros Hb Hdec. unfold decode_main_container in Hdec.
  destruct (decode_main_header file) as [what | hd] eqn:Hhd; [discriminate |].
  cbn [bind_outcome] in Hdec.
  destruct (decode_main_header_magic file hd Hhd) as [_ Hmagic].
  destruct (decode_main_header_ranges file hd Hb Hhd) as (Hbx & Hby & Hbz & Hsx & Hsy & Hsz).
  unfold decode_main_blocks in Hdec.
  destruct (Z.ltb_spec (Z.of_nat (length file))
              (need (total_blocks (hdr_bx hd) (hdr_by hd) (hdr_bz hd)
                                  (hdr_sx hd) (hdr_sy hd) (hdr_sz hd))))
    as [| Hlen]; [discriminate |].
  injection Hdec as <-. cbn [file_header file_total_blocks file_blocks_len].
  repeat (split; [assumption || lia |]).
  split; [now apply total_blocks_mod |].
  intros Hfit.
  pose proof (blockCount_pos (hdr_bx hd) (hdr_by hd) (hdr_bz hd)
                             (hdr_sx hd) (hdr_sy hd) (hdr_sz hd)) as Hpos.
  rewrite need_exact in Hlen by (assumption || (unfold totalFileSize; lia)).
  rewrite total_blocks_exact by (assumption || lia).
  unfold totalFileSize in Hlen. unfold size_mul.
  rewrite to_size_t_small by lia. lia.
Qed.

(** An instance: a file of 16 + 6 * 16 bytes. *)
Lemma decode_main_container_sound_witness :
  let file := header_bytes 4 4 1 12 8 1 ++ repeat 0 96 in
  firstn 4 file = [0x13; 0xAB; 0xA1; 0x5C]
  /\ 16 + 6 * 16 <= Z.of_nat (length file).
Proof.
  intros file.
  assert (Hb : is_bytes file).
  { unfold file, is_bytes. apply List.Forall_forall. intros x Hx.
    vm_compute in Hx.
    repeat (destruct Hx as [<- | Hx]; [lia |]). destruct Hx. }
  assert (Hdec : decode_main_container file
                 = Returned (mk_file (mk_header 4 4 1 12 8 1) 6 96))
    by (vm_compute; reflexivity).
  destruct (decode_main_container_sound file _ Hb Hdec)
    as (Hmagic & _ & _ & _ & _ & _ & _ & _ & Hfit).
  split; [exact Hmagic |].
  destruct Hfit as (_ & _ & Hin); [vm_compute; reflexivity |].
  exact Hin.
Defined.

End FileFacts.

(** ** Images *)

Section ImageFacts.
Import Machine Astcenc Bridge Harness.

(** Filling a whole table leaves nothing of what it held. *)
Lemma fill_slices_overwrites (elem base stride dim_z : Z) (t1 t2 : list Z) :
  0 <= dim_z ->
  Z.of_nat (length t1) = dim_z -> Z.of_nat (length t2) = dim_z ->
  fill_slices elem base stride dim_z t1 = fill_slices elem base stride dim_z t2.
Proof.
  intros Hz H1 H2. unfold fill_slices.
  destruct (fill_slices_prefix
              (fun z : nat => ptr_add elem base (size_mul (to_size_t (Z.of_nat z)) stride))
              (Z.to_nat dim_z) t1) as (L1 & Low1 & _); [lia |].
  destruct (fill_slices_prefix
              (fun z : nat => ptr_add elem base (size_mul (to_size_t (Z.of_nat z)) stride))
              (Z.to_nat dim_z) t2) as (L2 & Low2 & _); [lia |].
  cbv zeta in *. apply list_eq. intros i.
  destruct (Nat.lt_ge_cases i (Z.to_nat dim_z)) as [Hlt | Hge].
  - now rewrite Low1, Low2.
  - transitivity (@None Z); [| symmetry]; apply lookup_ge_None_2; lia.
Qed.

Lemma image_init_table_length (img : astcenc_image) (dim_z : Z) :
  image_wf img -> 0 <= dim_z ->
  Z.of_nat (length (match data img with
                    | None => new_table dim_z
                    | Some old =>
                        if negb (Astcenc.dim_z img =? dim_z) then new_table dim_z else old
                    end)) = dim_z.
Proof.
  intros Hwf Hz. unfold image_wf in Hwf.
  destruct (data img) as [old |]; [| now apply new_table_length].
  destruct (Z.eqb_spec (Astcenc.dim_z img) dim_z) as [E | NE]; cbn [negb];
    [congruence | now apply new_table_length].
Qed.

(** X9. An image made by image-create owns no table or one of as many
    entries as it has slices, and image-init keeps it so on every
    path: it fails with [ASTCENC_ERR_BAD_PARAM], leaving the image as
    it was, exactly when the buffer is null or a dimension is 0, and
    succeeds otherwise, and then the image has the dimensions and the
    element kind given and a table of exactly [dim_z] entries, entry
    [z] being the address of slice [z]. *)
Theorem image_wf_invariant (kind elem : Z) (img : astcenc_image)
        (dim_x dim_y dim_z rgba : Z) :
  image_wf img ->
  0 <= dim_z ->
  let result := image_init kind elem (Some img) dim_x dim_y dim_z rgba in
  (exists img', snd result = Some img' /\ image_wf img')
  /\ (rgba = 0 \/ dim_x = 0 \/ dim_y = 0 \/ dim_z = 0 ->
      result = (ASTCENC_ERR_BAD_PARAM, Some img))
  /\ (rgba <> 0 -> dim_x <> 0 -> dim_y <> 0 -> dim_z <> 0 ->
      exists table,
        result = (ASTCENC_SUCCESS, Some (mk_image dim_x dim_y dim_z kind (Some table)))
        /\ Z.of_nat (length table) = dim_z
        /\ forall z, 0 <= z < dim_z ->
                     table !! Z.to_nat z
                     = Some (ptr_offset rgba (z * dim_x * dim_y * 4 * elem)))
  /\ (forall out_img created,
         snd (image_create kind out_img) = Some created -> image_wf created).
Proof.
  intros Hwf Hz. cbv zeta.
  pose proof (image_init_table_length img dim_z Hwf Hz) as Hlen.
  assert (Hcreate : forall out_img created,
             snd (image_create kind out_img) = Some created -> image_wf created).
  { intros out_img created. unfold image_create.
    destruct (out_img =? 0); [discriminate | intros [= <-]; exact I]. }
  unfold image_init.
  destruct ((rgba =? 0) || (dim_x =? 0) || (dim_y =? 0) || (dim_z =? 0)) eqn:Hc.
  - split; [| split; [| split]].
    + exists img. split; [reflexivity | exact Hwf].
    + reflexivity.
    + intros Hr Hx Hy Hd. apply Z.eqb_neq in Hr, Hx, Hy, Hd.
      rewrite Hr, Hx, Hy, Hd in Hc. discriminate Hc.
    + exact Hcreate.
  - repeat (apply orb_false_elim in Hc; destruct Hc as [Hc ?]).
    repeat match goal with
           | H : (_ =? 0) = false |- _ => apply Z.eqb_neq in H
           end.
    split; [| split; [| split]].
    + eexists. split; [reflexivity |]. unfold image_wf. cbn [data Astcenc.dim_z].
      unfold fill_slices.
      destruct (fill_slices_prefix
                  (fun z => ptr_add elem rgba
                              (size_mul (to_size_t (Z.of_nat z)) (slice_stride dim_x dim_y)))
                  (Z.to_nat dim_z)
                  (match data img with
                   | None => new_table dim_z
                   | Some old =>
                       if negb (Astcenc.dim_z img =? dim_z) then new_table dim_z else old
                   end)) as (L & _ & _); [lia |].
      cbv zeta in L. rewrite L. exact Hlen.
    + intros [? | [? | [? | ?]]]; contradiction.
    + intros _ _ _ _. eexists. split; [reflexivity |].
      now apply fill_slices_table.
    + exact Hcreate.
Qed.

(** An instance: a created image initialised over two 2x2 slices. *)
Lemma image_wf_invariant_witness :
  exists table,
    astc_native_image_init_u8 (Some (mk_image 0 0 0 ASTCENC_TYPE_U8 None)) 2 2 2 4096
    = (ASTCENC_SUCCESS, Some (mk_image 2 2 2 ASTCENC_TYPE_U8 (Some table)))
    /\ Z.of_nat (length table) = 2
    /\ forall z, 0 <= z < 2 ->
                 table !! Z.to_nat z = Some (ptr_offset 4096 (z * 2 * 2 * 4 * 1)).
Proof.
  apply (image_wf_invariant ASTCENC_TYPE_U8 1 (mk_image 0 0 0 ASTCENC_TYPE_U8 None)
                            2 2 2 4096 I ltac:(lia)); lia.
Defined.

(** X10. What image-init makes of an image does not depend on what the
    image held before: initialising any two images with the same
    buffer and dimensions gives the same image, so that initialising
    again, or over a table kept from an earlier size, is initialising
    afresh. *)
Theorem image_init_overwrites (kind elem : Z) (img1 img2 : astcenc_image)
        (dim_x dim_y dim_z rgba : Z) :
  image_wf img1 -> image_wf img2 ->
  0 <= dim_z ->
  rgba <> 0 -> dim_x <> 0 -> dim_y <> 0 -> dim_z <> 0 ->
  image_init kind elem (Some img1) dim_x dim_y dim_z rgba
  = image_init kind elem (Some img2) dim_x dim_y dim_z rgba.
Proof.
  intros Hwf1 Hwf2 Hz Hr Hx Hy Hd. unfold image_init.
  apply Z.eqb_neq in Hr, Hx, Hy, Hd. rewrite Hr, Hx, Hy, Hd. cbn [orb].
  do 4 f_equal.
  apply fill_slices_overwrites; [exact Hz | |]; now apply image_init_table_length.
Qed.

(** An instance: a fresh image and one that held three slices. *)
Lemma image_init_overwrites_witness :
  astc_native_image_init_f32 (Some (mk_image 0 0 0 ASTCENC_TYPE_F32 None)) 2 2 2 4096
  = astc_native_image_init_f32 (Some (mk_image 5 5 3 ASTCENC_TYPE_F32 (Some [7; 8; 9])))
                               2 2 2 4096.
Proof.
  apply (image_init_overwrites ASTCENC_TYPE_F32 4); try lia.
  - exact I.
  - reflexivity.
Defined.

(** The address of a slice, computed the harness's way. *)
Lemma main_slice_address (elem base sx sy z : Z) :
  ptr_add elem base
          (size_mul (size_mul (size_mul (to_size_t z) (to_size_t sx)) (to_size_t sy)) 4)
  = ptr_add elem base (size_mul (to_size_t z) (slice_stride sx sy)).
Proof.
  rewrite slice_address.
  unfold ptr_add, ptr_offset, size_mul, to_size_t.
  generalize (2 ^ 64). intros m.
  apply mod_add_congr; [reflexivity |].
  apply mod_mul_congr; [| reflexivity].
  rewrite Zmod_mod.
  apply mod_mul_congr; [| reflexivity].
  rewrite Zmod_mod.
  apply mod_mul_congr; [| apply Zmod_mod].
  rewrite Zmod_mod.
  apply mod_mul_congr; apply Zmod_mod.
Qed.

Lemma fold_left_ext_in {A B : Type} (f g : A -> B -> A) (l : list B) (a : A) :
  (forall x y, f x y = g x y) -> fold_left f l a = fold_left g l a.
Proof.
  intros Hfg. revert a. induction l as [| y l IH]; intros a; cbn [fold_left];
    [reflexivity |]. now rewrite Hfg, IH.
Qed.

(** X11. The slice tables the benchmark harness builds for its byte
    and float images are the tables the bridge builds for the same
    buffer and dimensions: the harness and the bridge hand the codec
    the same image. *)
Theorem main_slices_as_bridge (base sx sy sz : Z) :
  0 <= sz < 2 ^ 64 ->
  Some (mk_image sx sy sz ASTCENC_TYPE_U8 (Some (main_slices 1 base sx sy sz)))
  = compress_transient_image ASTCENC_TYPE_U8 sx sy sz base
  /\ mk_image sx sy sz ASTCENC_TYPE_F32 (Some (main_slices 4 base sx sy sz))
     = decompress_transient_image ASTCENC_TYPE_F32 sx sy sz base.
Proof.
  intros Hsz.
  assert (Hm : forall elem,
             main_slices elem base sx sy sz
             = fill_slices elem base (slice_stride sx sy) sz (new_table sz)).
  { intros elem. unfold main_slices, fill_slices, new_table.
    rewrite (to_size_t_small sz) by lia.
    apply fold_left_ext_in. intros slices z. now rewrite main_slice_address. }
  rewrite !Hm. split; reflexivity.
Qed.

(** An instance: three 2x2 slices at address 1000. *)
Lemma main_slices_as_bridge_witness :
  Some (mk_image 2 2 3 ASTCENC_TYPE_U8 (Some (main_slices 1 1000 2 2 3)))
  = compress_transient_image ASTCENC_TYPE_U8 2 2 3 1000
  /\ mk_image 2 2 3 ASTCENC_TYPE_F32 (Some (main_slices 4 1000 2 2 3))
     = decompress_transient_image ASTCENC_TYPE_F32 2 2 3 1000.
Proof.
  apply main_slices_as_bridge. lia.
Defined.

End ImageFacts.

(** ** More on compress calls *)

Section CompressFacts.
Import Machine Astcenc Bridge.

(** X12. A compress call with a null context, input or output, a zero
    dimension or an unknown element kind returns
    [ASTCENC_ERR_BAD_PARAM] without running the codec: no slot, and no
    delivery, is different afterwards. *)
Theorem compress_refused (codec : compress_fn) (t : thread)
        (args : compress_args) (w : world) :
  ~ accepted args ->
  astc_native_compress_image_ex codec t args w = (ASTCENC_ERR_BAD_PARAM, w).
Proof.
  intros Hnot. unfold astc_native_compress_image_ex, compress_image_ex_with.
  destruct (_ || _ || _ || _ || _ || _) eqn:Hc; [reflexivity |].
  repeat (apply orb_false_elim in Hc; destruct Hc as [Hc ?]).
  repeat match goal with
         | H : (_ =? 0) = false |- _ => apply Z.eqb_neq in H
         end.
  unfold compress_transient_image.
  destruct (Z.eqb_spec (arg_data_type args) ASTCENC_TYPE_U8) as [E0 | N0].
  { exfalso. apply Hnot. unfold accepted. tauto. }
  destruct (Z.eqb_spec (arg_data_type args) ASTCENC_TYPE_F16) as [E1 | N1].
  { exfalso. apply Hnot. unfold accepted. tauto. }
  destruct (Z.eqb_spec (arg_data_type args) ASTCENC_TYPE_F32) as [E2 | N2].
  { exfalso. apply Hnot. unfold accepted. tauto. }
  reflexivity.
Qed.

(** An instance: element kind 3. *)
Lemma compress_refused_witness :
  astc_native_compress_image_ex
    (fun _ _ _ _ _ _ => Progress 10 GoReturn (Return ASTCENC_SUCCESS))
    0%nat (mk_compress_args 1 3 1 1 1 4096 None 8192 16 0 7) initial_world
  = (ASTCENC_ERR_BAD_PARAM, initial_world).
Proof.
  apply compress_refused.
  unfold accepted. cbn. intros (_ & _ & _ & _ & _ & _ & [H | [H | H]]); discriminate H.
Defined.

(** X13. The deliveries a compress call causes are determined by its
    arguments and by what the codec and the sink do during it; what
    any slot held when the call began plays no part.  A handle left in
    the slot by an enclosing call is never delivered for the events of
    the call. *)
Theorem compress_deliveries (codec : compress_fn) (t : thread)
        (args : compress_args) (w w' : world) :
  go_progress_calls (snd (astc_native_compress_image_ex codec t args w))
  = go_progress_calls w ++ call_deliveries deliveries args codec
  /\ (go_progress_calls w = go_progress_calls w' ->
      go_progress_calls (snd (astc_native_compress_image_ex codec t args w))
      = go_progress_calls (snd (astc_native_compress_image_ex codec t args w'))
      /\ fst (astc_native_compress_image_ex codec t args w)
         = fst (astc_native_compress_image_ex codec t args w')).
Proof.
  assert (Hcalls : forall w0,
             go_progress_calls (snd (astc_native_compress_image_ex codec t args w0))
             = go_progress_calls w0 ++ call_deliveries deliveries args codec).
  { intros w0. unfold astc_native_compress_image_ex.
    apply compress_image_ex_with_spec. intros img w1.
    apply (proj1 (run_codec_go_spec t)). }
  split; [apply Hcalls |].
  intros Hsame. split.
  - now rewrite !Hcalls, Hsame.
  - unfold astc_native_compress_image_ex, compress_image_ex_with.
    destruct (_ || _ || _ || _ || _ || _); [reflexivity |].
    destruct (compress_transient_image _ _ _ _ _) as [img |]; [| reflexivity].
    pose proof (run_codec_returned t
                  (codec (ctxp args) img (makeSwizzle (in_swz args)) (out_data args)
                         (out_len args) (thread_index args))
                  (set_tls_progress_handle t (progress_handle args) w)) as R1.
    pose proof (run_codec_returned t
                  (codec (ctxp args) img (makeSwizzle (in_swz args)) (out_data args)
                         (out_len args) (thread_index args))
                  (set_tls_progress_handle t (progress_handle args) w')) as R2.
    destruct (run_codec t _ (set_tls_progress_handle t (progress_handle args) w)).
    destruct (run_codec t _ (set_tls_progress_handle t (progress_handle args) w')).
    cbn [fst] in *. congruence.
Qed.

(** X14. [astc_native_compress_image] registers nothing: the events of
    its codec run are delivered under whatever handle the thread's slot
    holds, none if it holds 0; every slot is afterwards as before and
    the codec's error code is returned.  With a null context, image or
    output it returns [ASTCENC_ERR_BAD_PARAM] and nothing changes. *)
Theorem compress_image_keeps_handle (codec : compress_fn) (t : thread)
        (ctxp : Z) (imgp : option astcenc_image) (out_data out_len thread_index : Z)
        (w : world) :
  let result := astc_native_compress_image codec t ctxp imgp out_data out_len thread_index w in
  (forall t', astc_native_tls_progress_handle (snd result) t'
              = astc_native_tls_progress_handle w t')
  /\ match imgp with
     | None => result = (ASTCENC_ERR_BAD_PARAM, w)
     | Some img =>
         if (ctxp =? 0) || (out_data =? 0) then result = (ASTCENC_ERR_BAD_PARAM, w)
         else
           let run :=
             codec ctxp img
                   (mk_swizzle ASTCENC_SWZ_R ASTCENC_SWZ_G ASTCENC_SWZ_B ASTCENC_SWZ_A)
                   out_data out_len thread_index in
           fst result = returned run
           /\ go_progress_calls (snd result)
              = go_progress_calls w
                ++ (if astc_native_tls_progress_handle w t =? 0 then []
                    else deliveries (astc_native_tls_progress_handle w t) run)
     end.
Proof.
  cbv zeta. unfold astc_native_compress_image.
  destruct imgp as [img |]; [| split; reflexivity].
  destruct ((ctxp =? 0) || (out_data =? 0)); [split; reflexivity |].
  destruct (proj1 (run_codec_go_spec t)
              (codec ctxp img
                     (mk_swizzle ASTCENC_SWZ_R ASTCENC_SWZ_G ASTCENC_SWZ_B ASTCENC_SWZ_A)
                     out_data out_len thread_index) w) as [Hslot Hcalls].
  split; [exact Hslot |]. split; [apply run_codec_returned | exact Hcalls].
Qed.

End CompressFacts.

(** ** More on decompress calls *)

Section DecompressMore.
Import Machine Astcenc Bridge.

(** X15. The RGBA8 and RGBA32F entry points are the general entry point
    at element kind U8 and F32 with no swizzle given, for all
    arguments: the same tests, the same size guard, the same image. *)
Theorem decompress_entry_points_agree (codec : decompress_fn)
        (ctxp data data_len dim_x dim_y dim_z out_rgba out_len thread_index : Z)
        (m : memory) :
  astc_native_decompress_image_rgba8 codec ctxp data data_len dim_x dim_y dim_z
                                     out_rgba out_len thread_index m
  = astc_native_decompress_image_ex codec ctxp data data_len ASTCENC_TYPE_U8
                                    dim_x dim_y dim_z out_rgba out_len None thread_index m
  /\ astc_native_decompress_image_rgba32f codec ctxp data data_len dim_x dim_y dim_z
                                          out_rgba out_len thread_index m
     = astc_native_decompress_image_ex codec ctxp data data_len ASTCENC_TYPE_F32
                                       dim_x dim_y dim_z out_rgba out_len None thread_index m.
Proof.
  unfold astc_native_decompress_image_rgba8, astc_native_decompress_image_rgba32f,
         astc_native_decompress_image_ex, decompress_need, decompress_transient_image.
  change (ASTCENC_TYPE_U8 =? ASTCENC_TYPE_U8) with true.
  change (ASTCENC_TYPE_F32 =? ASTCENC_TYPE_U8) with false.
  change (ASTCENC_TYPE_F32 =? ASTCENC_TYPE_F16) with false.
  change (ASTCENC_TYPE_F32 =? ASTCENC_TYPE_F32) with true.
  cbv iota.
  destruct (_ || _ || _ || _ || _ || _); [split; reflexivity |].
  split.
  - destruct (out_len <? _); reflexivity.
  - destruct (out_len <? _); reflexivity.
Qed.

(** X16. The general decompress entry point never writes to memory
    itself: either its result is the codec's, called on the transient
    image, or memory is as before and the error is
    [ASTCENC_ERR_BAD_PARAM] or [ASTCENC_ERR_OUT_OF_MEM]; for an element
    kind other than U8, F16 and F32 it is always the former error. *)
Theorem decompress_codec_or_untouched (codec : decompress_fn)
        (ctxp data data_len out_type dim_x dim_y dim_z out_rgba out_len : Z)
        (in_swz : option astc_native_swizzle) (thread_index : Z) (m : memory) :
  let result :=
    astc_native_decompress_image_ex codec ctxp data data_len out_type dim_x dim_y dim_z
                                    out_rgba out_len in_swz thread_index m in
  (result = codec ctxp data data_len
                  (decompress_transient_image out_type dim_x dim_y dim_z out_rgba)
                  (makeSwizzle in_swz) thread_index m
   \/ result = (ASTCENC_ERR_BAD_PARAM, m)
   \/ result = (ASTCENC_ERR_OUT_OF_MEM, m))
  /\ (out_type <> ASTCENC_TYPE_U8 -> out_type <> ASTCENC_TYPE_F16 ->
      out_type <> ASTCENC_TYPE_F32 -> result = (ASTCENC_ERR_BAD_PARAM, m)).
Proof.
  cbv zeta. unfold astc_native_decompress_image_ex.
  destruct (_ || _ || _ || _ || _ || _); [split; auto |].
  destruct (decompress_need out_type dim_x dim_y dim_z) as [need |] eqn:Hneed.
  - split.
    + destruct (out_len <? need); auto.
    + intros N0 N1 N2. unfold decompress_need in Hneed.
      apply Z.eqb_neq in N0, N1, N2. rewrite N0, N1, N2 in Hneed. discriminate Hneed.
  - split; auto.
Qed.

End DecompressMore.

(** ** More on block information *)

Section BlockInfoMore.
Import Machine Astcenc Bridge.

(** X17. When the codec's decode succeeds, nothing of what the caller's
    record held survives: every field of the record is the codec's
    field of the same name, with each flag 1 where the codec's is true
    and 0 where it is false, and each array the codec's cut to the
    record's capacity (4 endpoint modes, 32 endpoint values, 216
    weights for each plane, 216 partition assignments), so copied
    whole when the codec's array has that size. *)
Theorem block_info_copied_on_success
        (astcenc_get_block_info : Z -> list Z -> astcenc_error * astcenc_block_info)
        (ctxp : Z) (data : list Z) (out : astc_native_block_info)
        (info : astcenc_block_info) :
  ctxp <> 0 ->
  astcenc_get_block_info ctxp data = (ASTCENC_SUCCESS, info) ->
  exists copied,
    (forall out', astc_native_get_block_info astcenc_get_block_info ctxp (Some data) (Some out')
                  = (ASTCENC_SUCCESS, Some copied))
    /\ astc_native_get_block_info astcenc_get_block_info ctxp (Some data) (Some out)
       = (ASTCENC_SUCCESS, Some copied)
    /\ profile copied = bi_profile info
    /\ block_x copied = bi_block_x info
    /\ block_y copied = bi_block_y info
    /\ block_z copied = bi_block_z info
    /\ texel_count copied = bi_texel_count info
    /\ partition_count copied = bi_partition_count info
    /\ partition_index copied = bi_partition_index info
    /\ dual_plane_component copied = bi_dual_plane_component info
    /\ color_level_count copied = bi_color_level_count info
    /\ weight_level_count copied = bi_weight_level_count info
    /\ weight_x copied = bi_weight_x info
    /\ weight_y copied = bi_weight_y info
    /\ weight_z copied = bi_weight_z info
    /\ is_error_block copied = (if bi_is_error_block info then 1 else 0)
    /\ is_constant_block copied = (if bi_is_constant_block info then 1 else 0)
    /\ is_hdr_block copied = (if bi_is_hdr_block info then 1 else 0)
    /\ is_dual_plane_block copied = (if bi_is_dual_plane_block info then 1 else 0)
    /\ color_endpoint_modes copied = firstn 4 (bi_color_endpoint_modes info)
    /\ color_endpoints copied = firstn 32 (bi_color_endpoints info)
    /\ weight_values_plane1 copied = firstn 216 (bi_weight_values_plane1 info)
    /\ weight_values_plane2 copied = firstn 216 (bi_weight_values_plane2 info)
    /\ partition_assignment copied = firstn 216 (bi_partition_assignment info)
    /\ (is_error_block copied = 0 \/ is_error_block copied = 1)
    /\ (is_constant_block copied = 0 \/ is_constant_block copied = 1)
    /\ (is_hdr_block copied = 0 \/ is_hdr_block copied = 1)
    /\ (is_dual_plane_block copied = 0 \/ is_dual_plane_block copied = 1)
    /\ (length (color_endpoint_modes copied) <= 4)%nat
    /\ (length (color_endpoints copied) <= 32)%nat
    /\ (length (weight_values_plane1 copied) <= 216)%nat
    /\ (length (weight_values_plane2 copied) <= 216)%nat
    /\ (length (partition_assignment copied) <= 216)%nat
    /\ (length (bi_color_endpoint_modes info) = 4%nat ->
        color_endpoint_modes copied = bi_color_endpoint_modes info)
    /\ (length (bi_color_endpoints info) = 32%nat ->
        color_endpoints copied = bi_color_endpoints info)
    /\ (length (bi_weight_values_plane1 info) = 216%nat ->
        weight_values_plane1 copied = bi_weight_values_plane1 info)
    /\ (length (bi_weight_values_plane2 info) = 216%nat ->
        weight_values_plane2 copied = bi_weight_values_plane2 info)
    /\ (length (bi_partition_assignment info) = 216%nat ->
        partition_assignment copied = bi_partition_assignment info).
Proof.
  intros Hctx Hinfo. apply Z.eqb_neq in Hctx.
  eexists. split; [| split].
  - intros out'. unfold astc_native_get_block_info. rewrite Hctx, Hinfo.
    cbn [is_error]. reflexivity.
  - unfold astc_native_get_block_info. rewrite Hctx, Hinfo. reflexivity.
  - cbn [profile block_x block_y block_z texel_count partition_count partition_index
         dual_plane_component color_level_count weight_level_count
         weight_x weight_y weight_z is_error_block is_constant_block
         is_hdr_block is_dual_plane_block color_endpoint_modes color_endpoints
         weight_values_plane1 weight_values_plane2 partition_assignment].
    repeat split; try reflexivity;
      try (unfold flag; match goal with |- context [if ?b then _ else _] => destruct b end;
           auto);
      try (rewrite length_take; lia);
      try (intros Hl; apply firstn_all2; lia).
Qed.

(** An instance: a constant block. *)
Lemma block_info_copied_on_success_witness :
  let info := mk_block_info 0 4 4 1 16 false true false false 1 0 0 [0; 0; 0; 0]
                            0 0 0 0 0 [] [] [] [] in
  astc_native_get_block_info (fun _ _ => (ASTCENC_SUCCESS, info)) 1 (Some (repeat 0 16))
    (Some (mk_native_block_info 1 1 1 1 1 1 1 1 1 1 1 1 [1] 1 1 1 1 1 [1] [1] [1] [1]))
  = astc_native_get_block_info (fun _ _ => (ASTCENC_SUCCESS, info)) 1 (Some (repeat 0 16))
      (Some (mk_native_block_info 2 2 2 2 2 2 2 2 2 2 2 2 [2] 2 2 2 2 2 [2] [2] [2] [2])).
Proof.
  intros info.
  destruct (block_info_copied_on_success
              (fun _ _ => (ASTCENC_SUCCESS, info)) 1 (repeat 0 16)
              (mk_native_block_info 1 1 1 1 1 1 1 1 1 1 1 1 [1] 1 1 1 1 1 [1] [1] [1] [1])
              info ltac:(lia) eq_refl) as (copied & Hall & _).
  now rewrite !Hall.
Defined.

End BlockInfoMore.

(** ** Context creation *)

Section ContextFacts.
Import Machine Astcenc Context.

(** X18. Creating a context never leaves a partial result: both
    constructors store a handle through [out_ctx] only when they
    return [ASTCENC_SUCCESS], and then it is the handle the codec
    allocated; on every failure what [out_ctx] refers to is as before.
    The failures are [ASTCENC_ERR_BAD_PARAM] for a null [out_ctx], and
    for a null [in_cfg] of the second constructor, whatever the codec
    would answer, and else the codec's own error. *)
Theorem context_create_all_or_nothing
        (astcenc_config_init : config_init_fn) (astcenc_context_alloc : context_alloc_fn)
        (profile block_x block_y block_z : Z) (quality : float) (flags thread_count : Z)
        (in_cfg : option astc_native_config_data) (enable_progress_callback : Z)
        (out_ctx : option Z) :
  let quick :=
    astc_native_context_create astcenc_config_init astcenc_context_alloc
      profile block_x block_y block_z quality flags thread_count out_ctx in
  let explicit :=
    astc_native_context_alloc_from_data astcenc_context_alloc in_cfg
      thread_count enable_progress_callback out_ctx in
  let init := astcenc_config_init profile block_x block_y block_z quality flags in
  let alloc cfg := astcenc_context_alloc cfg thread_count in
  match out_ctx with
  | None =>
      quick = (ASTCENC_ERR_BAD_PARAM, None) /\ explicit = (ASTCENC_ERR_BAD_PARAM, None)
  | Some old =>
      (quick = (ASTCENC_SUCCESS, Some (snd (alloc (snd init))))
       /\ fst init = ASTCENC_SUCCESS /\ fst (alloc (snd init)) = ASTCENC_SUCCESS
       \/ quick = (fst init, Some old) /\ fst init <> ASTCENC_SUCCESS
       \/ quick = (fst (alloc (snd init)), Some old)
          /\ fst init = ASTCENC_SUCCESS /\ fst (alloc (snd init)) <> ASTCENC_SUCCESS)
      /\ match in_cfg with
         | None => explicit = (ASTCENC_ERR_BAD_PARAM, Some old)
         | Some data =>
             explicit
             = (ASTCENC_SUCCESS,
                Some (snd (alloc (config_of_data data enable_progress_callback))))
             /\ fst (alloc (config_of_data data enable_progress_callback)) = ASTCENC_SUCCESS
             \/ explicit
                = (fst (alloc (config_of_data data enable_progress_callback)), Some old)
                /\ fst (alloc (config_of_data data enable_progress_callback))
                   <> ASTCENC_SUCCESS
         end
  end.
Proof.
  cbv zeta. unfold astc_native_context_create, astc_native_context_alloc_from_data.
  destruct out_ctx as [old |]; [| destruct in_cfg; split; reflexivity].
  split.
  - destruct (astcenc_config_init profile block_x block_y block_z quality flags)
      as [err cfg].
    cbn [fst snd].
    destruct err; cbn [is_error];
      try (right; left; split; [reflexivity | discriminate]).
    destruct (astcenc_context_alloc cfg thread_count) as [err ctx]. cbn [fst snd].
    destruct err; cbn [is_error];
      try (right; right; split; [reflexivity | split; [reflexivity | discriminate]]).
    left. auto.
  - destruct in_cfg as [data |]; [| reflexivity].
    destruct (astcenc_context_alloc (config_of_data data enable_progress_callback)
                                    thread_count) as [err ctx].
    cbn [fst snd].
    destruct err; cbn [is_error];
      try (right; split; [reflexivity | discriminate]).
    left. auto.
Qed.

(** X19. The record [astc_native_config_init_data] fills and
    [astc_native_context_alloc_from_data] reads carries a
    configuration faithfully: the codec is asked to allocate from the
    very configuration its own initialiser produced, only the progress
    callback being the trampoline when progress is enabled and null
    when not.  Where the initialiser leaves the callback null, creating
    in two steps without progress is creating in one. *)
Theorem config_data_roundtrip
        (astcenc_config_init : config_init_fn) (astcenc_context_alloc : context_alloc_fn)
        (profile block_x block_y block_z : Z) (quality : float) (flags thread_count : Z)
        (cfg : astcenc_config) (old_cfg : astc_native_config_data)
        (enable_progress_callback old : Z) :
  astcenc_config_init profile block_x block_y block_z quality flags
  = (ASTCENC_SUCCESS, cfg) ->
  exists data,
    astc_native_config_init_data astcenc_config_init profile block_x block_y block_z
                                 quality flags (Some old_cfg)
    = (ASTCENC_SUCCESS, Some data)
    /\ config_of_data data enable_progress_callback
       = with_callback cfg (if negb (enable_progress_callback =? 0)
                            then Trampoline else Null)
    /\ (cfg_progress_callback cfg = Null ->
        astc_native_context_alloc_from_data astcenc_context_alloc (Some data)
                                            thread_count 0 (Some old)
        = astc_native_context_create astcenc_config_init astcenc_context_alloc
                                     profile block_x block_y block_z quality flags
                                     thread_count (Some old)).
Proof.
  intros Hinit. unfold astc_native_config_init_data. rewrite Hinit. cbn [is_error].
  eexists. split; [reflexivity |]. split; [reflexivity |].
  intros Hnull.
  unfold astc_native_context_alloc_from_data, astc_native_context_create.
  rewrite Hinit. cbn [is_error].
  replace (config_of_data _ 0) with cfg; [reflexivity |].
  destruct cfg. cbn in Hnull. subst. reflexivity.
Qed.

(** An instance: an initialiser that answers with one fixed
    configuration. *)
Lemma config_data_roundtrip_witness :
  let cfg := mk_config 0 0 4 4 1 1 1 1 1 0 5 4 10 10 10 50 2 2 2 2 2 30 1 1 1 1 0 Null in
  let old_cfg := mk_config_data 9 9 9 9 9 9 9 9 9 9 9 9 9 9 9 9 9 9 9 9 9 9 9 9 9 9 9 in
  let init : config_init_fn := fun _ _ _ _ _ _ => (ASTCENC_SUCCESS, cfg) in
  let alloc : context_alloc_fn := fun _ _ => (ASTCENC_SUCCESS, 1) in
  exists data,
    astc_native_config_init_data init 0 4 4 1 60 0 (Some old_cfg)
    = (ASTCENC_SUCCESS, Some data)
    /\ config_of_data data 1 = with_callback cfg Trampoline
    /\ (cfg_progress_callback cfg = Null ->
        astc_native_context_alloc_from_data alloc (Some data) 1 0 (Some 0)
        = astc_native_context_create init alloc 0 4 4 1 60 0 1 (Some 0)).
Proof.
  intros cfg old_cfg init alloc.
  exact (config_data_roundtrip init alloc 0 4 4 1 60 0 1 cfg old_cfg 1 0 eq_refl).
Defined.

End ContextFacts.

(** ** The synthetic input *)

Section PatternFacts.
Import Machine Harness.

Lemma fold_left_flat_map {A B C : Type} (f : A -> C -> A) (g : B -> list C)
      (l : list B) (a : A) :
  fold_left f (flat_map g l) a = fold_left (fun a x => fold_left f (g x) a) l a.
Proof.
  revert a. induction l as [| x l IH]; intros a; cbn [flat_map fold_left];
    [reflexivity |]. now rewrite fold_left_app, IH.
Qed.

Lemma fold_left_map {A B C : Type} (f : A -> C -> A) (g : B -> C) (l : list B) (a : A) :
  fold_left f (map g l) a = fold_left (fun a x => f a (g x)) l a.
Proof.
  revert a. induction l as [| x l IH]; intros a; cbn [map fold_left];
    [reflexivity |]. apply IH.
Qed.

(** The three loops as one pass over the texels. *)
Lemma fill_pattern_rgba8_flat (pix : list Z) (width height depth : Z) :
  fill_pattern_rgba8 pix width height depth
  = fold_left (fun pix '(z, y, x) => fill_texel pix width height z y x)
              (pattern_coords width height depth) pix.
Proof.
  unfold fill_pattern_rgba8, pattern_coords.
  rewrite fold_left_flat_map. apply fold_left_ext_in. intros p z.
  rewrite fold_left_flat_map. apply fold_left_ext_in. intros p' y.
  now rewrite fold_left_map.
Qed.

Lemma in_range (n v : Z) : In v (range n) <-> 0 <= v < n.
Proof.
  unfold range. rewrite in_map_iff. split.
  - intros (k & <- & Hk). apply in_seq in Hk. lia.
  - intros Hv. exists (Z.to_nat v). split; [lia |]. apply in_seq. lia.
Qed.

Lemma in_pattern_coords (width height depth z y x : Z) :
  In (z, y, x) (pattern_coords width height depth)
  <-> 0 <= z < depth /\ 0 <= y < height /\ 0 <= x < width.
Proof.
  unfold pattern_coords. rewrite in_flat_map. split.
  - intros (z' & Hz & Hin). apply in_flat_map in Hin. destruct Hin as (y' & Hy & Hin).
    apply in_map_iff in Hin. destruct Hin as (x' & [= <- <- <-] & Hx).
    apply in_range in Hz, Hy, Hx. auto.
  - intros (Hz & Hy & Hx). exists z. split; [now apply in_range |].
    apply in_flat_map. exists y. split; [now apply in_range |].
    apply in_map_iff. exists x. split; [reflexivity | now apply in_range].
Qed.

Lemma nth_insert (l : list Z) (i q : nat) (v : Z) :
  (i < length l)%nat ->
  nth q (<[i := v]> l) 0 = if Nat.eqb q i then v else nth q l 0.
Proof.
  intros Hi. rewrite !nth_lookup.
  destruct (Nat.eqb_spec q i) as [-> | Hne].
  - now rewrite list_lookup_insert_eq.
  - now rewrite list_lookup_insert_ne by congruence.
Qed.

Lemma to_int_mod_256 (v : Z) : to_int v mod 256 = v mod 256.
Proof. unfold to_int. Z.div_mod_to_equations. lia. Qed.

Lemma pattern_sum_mod (x y z a b c : Z) :
  int_add (int_add (int_mul x a) (int_mul y b)) (int_mul z c) mod 256
  = (x * a + y * b + z * c) mod 256.
Proof.
  unfold int_add, int_mul. rewrite to_int_mod_256.
  apply mod_add_congr; [| apply to_int_mod_256].
  rewrite to_int_mod_256.
  apply mod_add_congr; apply to_int_mod_256.
Qed.

Lemma to_uint8_uint32 (v : Z) : to_uint8 (to_uint32 v) = v mod 256.
Proof. apply write_u24_le_bytes. Qed.

(** The offset of a texel, computed without overflow. *)
Lemma texel_offset_exact (width height depth z y x : Z) :
  1 <= width -> 1 <= height ->
  width * height * depth * 4 < 2 ^ 31 ->
  0 <= z < depth -> 0 <= y < height -> 0 <= x < width ->
  to_size_t (int_mul (int_add (int_mul (int_add (int_mul z height) y) width) x) 4)
  = ((z * height + y) * width + x) * 4
  /\ 0 <= ((z * height + y) * width + x) * 4
  /\ ((z * height + y) * width + x) * 4 + 4 <= width * height * depth * 4.
Proof.
  intros Hw Hh Hfit Hz Hy Hx.
  assert (H1 : 0 <= z * height /\ z * height + y + 1 <= depth * height) by nia.
  assert (H2 : 0 <= (z * height + y) * width
               /\ (z * height + y) * width + x + 1 <= depth * height * width) by nia.
  unfold int_mul, int_add.
  rewrite (to_int_small (z * height)) by nia.
  rewrite (to_int_small (z * height + y)) by nia.
  rewrite (to_int_small ((z * height + y) * width)) by nia.
  rewrite (to_int_small ((z * height + y) * width + x)) by nia.
  rewrite (to_int_small (((z * height + y) * width + x) * 4)) by nia.
  rewrite to_size_t_small by nia.
  split; [reflexivity | nia].
Qed.

(** One texel: four bytes stored, the rest as before. *)
Lemma fill_texel_spec (pix : list Z) (width height z y x : Z) (off : nat) :
  Z.to_nat (to_size_t (int_mul (int_add (int_mul (int_add (int_mul z height) y) width) x) 4))
  = off ->
  (off + 4 <= length pix)%nat ->
  let out := fill_texel pix width height z y x in
  length out = length pix
  /\ nth off out 0 = (x * 3 + y * 5 + z * 7) mod 256
  /\ nth (off + 1) out 0 = (x * 11 + y * 13 + z * 17) mod 256
  /\ nth (off + 2) out 0 = Z.lxor (Z.lxor x y) z mod 256
  /\ nth (off + 3) out 0 = 255 - (x * 5 + y * 7 + z * 3) mod 256
  /\ forall q, ~ (off <= q < off + 4)%nat -> nth q out 0 = nth q pix 0.
Proof.
  intros Hoff Hlen. cbv zeta. unfold fill_texel. rewrite Hoff.
  rewrite !to_uint8_uint32.
  rewrite !pattern_sum_mod.
  assert (Ha : (255 - to_uint32 (Z.land (int_add (int_add (int_mul x 5) (int_mul y 7))
                                                 (int_mul z 3)) 255)) mod 256
               = 255 - (x * 5 + y * 7 + z * 3) mod 256).
  { change (Z.land ?v 255) with (to_uint8 v). rewrite to_uint8_mod, pattern_sum_mod.
    pose proof (Z.mod_pos_bound (x * 5 + y * 7 + z * 3) 256).
    rewrite to_uint32_small by lia. apply Z.mod_small. lia. }
  rewrite Ha.
  split; [now rewrite !length_insert |].
  repeat split.
  - rewrite !nth_insert by (rewrite ?length_insert; lia).
    repeat match goal with
           | |- context [Nat.eqb ?a ?b] => destruct (Nat.eqb_spec a b); try lia
           end; reflexivity.
  - rewrite !nth_insert by (rewrite ?length_insert; lia).
    repeat match goal with
           | |- context [Nat.eqb ?a ?b] => destruct (Nat.eqb_spec a b); try lia
           end; reflexivity.
  - rewrite !nth_insert by (rewrite ?length_insert; lia).
    repeat match goal with
           | |- context [Nat.eqb ?a ?b] => destruct (Nat.eqb_spec a b); try lia
           end; reflexivity.
  - rewrite !nth_insert by (rewrite ?length_insert; lia).
    repeat match goal with
           | |- context [Nat.eqb ?a ?b] => destruct (Nat.eqb_spec a b); try lia
           end; reflexivity.
  - intros q Hq. rewrite !nth_insert by (rewrite ?length_insert; lia).
    repeat match goal with
           | |- context [Nat.eqb ?a ?b] => destruct (Nat.eqb_spec a b); try lia
           end; reflexivity.
Qed.

(** Two different texels of the volume have different offsets. *)
Lemma texel_offsets_apart (width height z y x z' y' x' : Z) :
  0 <= y < height -> 0 <= x < width ->
  0 <= y' < height -> 0 <= x' < width ->
  (z, y, x) <> (z', y', x') ->
  (z * height + y) * width + x <> (z' * height + y') * width + x'.
Proof.
  intros Hy Hx Hy' Hx' Hne Heq.
  assert (Hsplit : forall a b r s m : Z,
             0 <= r < m -> 0 <= s < m -> a * m + r = b * m + s -> a = b /\ r = s).
  { intros a b r s m Hr Hs H.
    assert (a = b); [| subst; lia].
    destruct (Z.lt_trichotomy a b) as [Hlt | [He | Hgt]]; [| exact He |].
    - assert (a * m + m <= b * m) by nia. lia.
    - assert (b * m + m <= a * m) by nia. lia. }
  destruct (Hsplit _ _ _ _ _ Hx Hx' Heq) as [H1 ->].
  destruct (Hsplit _ _ _ _ _ Hy Hy' H1) as [-> ->].
  now apply Hne.
Qed.

(** A pass over any list of texels of the volume leaves the length alone
    and leaves each visited texel with its four pattern bytes. *)
Lemma fill_texels_spec (width height depth : Z) (keys : list (Z * Z * Z)) (pix : list Z) :
  1 <= width -> 1 <= height ->
  width * height * depth * 4 < 2 ^ 31 ->
  Z.of_nat (length pix) = width * height * depth * 4 ->
  (forall z y x, In (z, y, x) keys ->
                 0 <= z < depth /\ 0 <= y < height /\ 0 <= x < width) ->
  let out := fold_left (fun pix '(z, y, x) => fill_texel pix width height z y x) keys pix in
  length out = length pix
  /\ forall z y x, In (z, y, x) keys ->
       let off := Z.to_nat (((z * height + y) * width + x) * 4) in
       nth off out 0 = (x * 3 + y * 5 + z * 7) mod 256
       /\ nth (off + 1) out 0 = (x * 11 + y * 13 + z * 17) mod 256
       /\ nth (off + 2) out 0 = Z.lxor (Z.lxor x y) z mod 256
       /\ nth (off + 3) out 0 = 255 - (x * 5 + y * 7 + z * 3) mod 256.
Proof.
  intros Hw Hh Hfit Hlen. cbv zeta.
  induction keys as [| [[kz ky] kx] keys IH] using rev_ind; intros Hin.
  - split; [reflexivity | intros z y x []].
  - rewrite fold_left_app. cbn [fold_left].
    destruct IH as [IHlen IHval].
    { intros z y x H. apply Hin, in_or_app. now left. }
    destruct (Hin kz ky kx) as (Hkz & Hky & Hkx).
    { apply in_or_app. right. now left. }
    destruct (texel_offset_exact width height depth kz ky kx Hw Hh Hfit Hkz Hky Hkx)
      as (Hoff & Hlo & Hhi).
    set (prev := fold_left _ keys pix) in *.
    destruct (fill_texel_spec prev width height kz ky kx
                (Z.to_nat (((kz * height + ky) * width + kx) * 4)))
      as (Hl & Hr & Hg & Hb & Ha & Hrest).
    { now rewrite Hoff. }
    { rewrite IHlen. lia. }
    split; [congruence |].
    intros z y x Hzyx.
    destruct (decide ((kz, ky, kx) = (z, y, x))) as [[= <- <- <-] | Hne].
    + auto.
    + assert (Hold : In (z, y, x) keys).
      { apply in_app_or in Hzyx. destruct Hzyx as [H | [H | []]]; [exact H | congruence]. }
      destruct (Hin z y x Hzyx) as (Hz & Hy & Hx).
      pose proof (texel_offsets_apart width height kz ky kx z y x Hky Hkx Hy Hx Hne) as Hap.
      destruct (texel_offset_exact width height depth z y x Hw Hh Hfit Hz Hy Hx)
        as (_ & Hlo' & _).
      destruct (IHval z y x Hold) as (Hr' & Hg' & Hb' & Ha').
      rewrite !Hrest by lia. auto.
Qed.

(** X20.  On a buffer of exactly [width * height * depth * 4] bytes, for
    dimensions whose [int] arithmetic does not overflow,
    [fill_pattern_rgba8] keeps the length and leaves every texel
    [(x, y, z)] of the volume with the bytes
    [(3x + 5y + 7z) mod 256], [(11x + 13y + 17z) mod 256],
    [(x xor y xor z) mod 256] and [255 - (5x + 7y + 3z) mod 256] at offset
    [((z * height + y) * width + x) * 4]: nothing of the buffer's earlier
    contents survives. *)
Theorem fill_pattern_rgba8_texels (pix : list Z) (width height depth : Z) :
  1 <= width -> 1 <= height -> 1 <= depth ->
  width * height * depth * 4 < 2 ^ 31 ->
  17 * (width + height + depth) < 2 ^ 31 ->
  Z.of_nat (length pix) = width * height * depth * 4 ->
  let out := fill_pattern_rgba8 pix width height depth in
  length out = length pix
  /\ forall z y x, 0 <= z < depth -> 0 <= y < height -> 0 <= x < width ->
       let off := Z.to_nat (((z * height + y) * width + x) * 4) in
       nth off out 0 = (x * 3 + y * 5 + z * 7) mod 256
       /\ nth (off + 1) out 0 = (x * 11 + y * 13 + z * 17) mod 256
       /\ nth (off + 2) out 0 = Z.lxor (Z.lxor x y) z mod 256
       /\ nth (off + 3) out 0 = 255 - (x * 5 + y * 7 + z * 3) mod 256.
Proof.
  intros Hw Hh Hd Hfit _ Hlen. cbv zeta. rewrite fill_pattern_rgba8_flat.
  destruct (fill_texels_spec width height depth (pattern_coords width height depth) pix
              Hw Hh Hfit Hlen) as [Hl Hval].
  { intros z y x H. now apply in_pattern_coords. }
  split; [exact Hl |].
  intros z y x Hz Hy Hx. apply Hval. now apply in_pattern_coords.
Qed.

Lemma fill_pattern_rgba8_texels_witness :
  let out := fill_pattern_rgba8 (repeat 170 48) 3 2 2 in
  length out = 48%nat
  /\ forall z y x, 0 <= z < 2 -> 0 <= y < 2 -> 0 <= x < 3 ->
       let off := Z.to_nat (((z * 2 + y) * 3 + x) * 4) in
       nth off out 0 = (x * 3 + y * 5 + z * 7) mod 256
       /\ nth (off + 1) out 0 = (x * 11 + y * 13 + z * 17) mod 256
       /\ nth (off + 2) out 0 = Z.lxor (Z.lxor x y) z mod 256
       /\ nth (off + 3) out 0 = 255 - (x * 5 + y * 7 + z * 3) mod 256.
Proof.
  apply (fill_pattern_rgba8_texels (repeat 170 48) 3 2 2); try lia; reflexivity.
Defined.

End PatternFacts.
